(** * elasticsearch_exporter: the tasks and error-query collectors

    A shallow embedding of the [collector] package as far as the source
    file carries it: the [LogsQueries] collector, the [Tasks] collector
    and the task-list schema.  It is followed by the properties of the
    collector protocol: what the extraction functions compute, and what
    a [Collect] call does to the bookkeeping counters, to the registry
    channel and to the HTTP response it obtained.

    The calls of a collector are taken one at a time.  The libraries the
    collectors call ([net/http], [net/url], [path], [encoding/json],
    [go-kit/log], [prometheus]) are described at their boundary: what a
    call is given and what it hands back.  The network and the JSON
    decoder are arbitrary; every property holds for all of them. *)

From stdpp Require Import gmap strings list fin_maps.
From Stdlib Require Import ZArith Lia.

Local Open Scope Z_scope.

(** ** Go's [int] and the conversion [float64(int)]

    [int] is the 64-bit two's-complement integer of the usual targets.
    Arithmetic on it wraps around; [int_wrap] is that wrap-around on a
    mathematical integer. *)

Definition int_min : Z := - 2 ^ 63.
Definition int_max : Z := 2 ^ 63 - 1.

Definition int_wrap (z : Z) : Z := (z + 2 ^ 63) mod 2 ^ 64 - 2 ^ 63.

(** [count += n] on an [int]. *)
Definition int_add (a b : Z) : Z := int_wrap (a + b).

(** Go's [/] on integers truncates toward zero: it is [Z.quot], not the
    flooring [Z.div]. *)
Definition int_div (a b : Z) : Z := Z.quot a b.

(** A [float64] holding an integral value is modelled by that value.
    [float64_of_int z] is the value of [float64(z)]: [z] rounded to a
    53-bit significand, ties to even.  Integers of magnitude below
    [2^53] are converted exactly. *)
Definition float64_of_int (z : Z) : Z :=
  let a := Z.abs z in
  let e := Z.log2 a - 52 in
  if e <=? 0 then z
  else
    let q := Z.shiftr a e in
    let r := Z.land a (Z.ones e) in
    let half := Z.shiftl 1 (e - 1) in
    let q' := if (half <? r) || ((r =? half) && Z.odd q) then q + 1 else q in
    Z.sgn z * Z.shiftl q' e.

(** The rounding bit of that conversion, on its own: whether the
    significand [q] is rounded up, given the remainder [r] and half a
    unit in the last place [half]. *)
Definition round_up (half q r : Z) : Z :=
  if (half <? r) || ((r =? half) && Z.odd q) then 1 else 0.

(** ** The task-list schema (the [TasksResponse] types)

    The field [Node] of a task and the fields called [Type] are written
    with a trailing underscore: [Node] is also a struct and [Type] is a
    keyword here. *)

Record Header : Type := mkHeader { }.

Record Task : Type := mkTask {
  Node_ : string;
  Id : Z;
  Type_ : string;
  Action : string;
  StartTimeInMillis : Z;
  RunningTimeInNanos : Z;
  Cancellable : bool;
  ParentTaskId : string;
  Headers : gmap string Header
}.

Record Node : Type := mkNode {
  Name : string;
  TransportAddress : string;
  Host : string;
  Ip : string;
  Roles : list string;
  Tasks : gmap string Task
}.

Record TasksResponse : Type := mkTasksResponse {
  Nodes : gmap string Node
}.

(** Modelled from the spec: the declaration of
    [NetworkDiscoveryErrorQueryResponse] is not in the source file; the
    spec gives its shape as [{"hits":{"total": <int>}}], and the
    extraction function reads [response.Hits.Total]. *)
Record HitsT : Type := mkHits { Total : Z }.

Record NetworkDiscoveryErrorQueryResponse : Type :=
  mkNetworkDiscoveryErrorQueryResponse { Hits : HitsT }.

(** ** Ranging over a Go map

    [for _, v := range m] visits every entry of [m] once, in an order the
    language leaves open.  The loops below are written over the list of
    entries that is visited; [map_to_list] is one such order, and the
    extraction functions are shown further down not to depend on the
    choice. *)

(** [len(node.Tasks)]. *)
Definition len_Tasks (node : Node) : Z := Z.of_nat (size (Tasks node)).

(** The loop of the [total] extraction function, over the visited nodes. *)
Definition total_loop (visited : list (string * Node)) (count : Z) : Z :=
  fold_left (fun count kn => int_add count (len_Tasks kn.2)) visited count.

(** [Value] of the [total] metric. *)
Definition total_Value (tasks : TasksResponse) : Z :=
  let count := 0 in
  let count := total_loop (map_to_list (Nodes tasks)) count in
  float64_of_int count.

(** The test of the [total_gt_1s] extraction function on one task. *)
Definition gt_1s (task : Task) : bool :=
  let ms := int_div (RunningTimeInNanos task) 1000000 in
  1000 <? ms.

(** The inner loop of [total_gt_1s], over the visited tasks of a node. *)
Definition gt_1s_inner (visited : list (string * Task)) (count : Z) : Z :=
  fold_left
    (fun count kt => if gt_1s kt.2 then int_add count 1 else count)
    visited count.

(** The outer loop of [total_gt_1s]; [order] gives, for each node, the
    order in which its tasks are visited. *)
Definition gt_1s_loop_in (order : Node -> list (string * Task))
    (visited : list (string * Node)) (count : Z) : Z :=
  fold_left (fun count kn => gt_1s_inner (order kn.2) count) visited count.

Definition gt_1s_loop (visited : list (string * Node)) (count : Z) : Z :=
  gt_1s_loop_in (fun node => map_to_list (Tasks node)) visited count.

(** [Value] of the [total_gt_1s] metric. *)
Definition total_gt_1s_Value (tasks : TasksResponse) : Z :=
  let count := 0 in
  let count := gt_1s_loop (map_to_list (Nodes tasks)) count in
  float64_of_int count.

(** [Value] of the [total_network_discovery_error] metric. *)
Definition total_network_discovery_error_Value
    (response : NetworkDiscoveryErrorQueryResponse) : Z :=
  float64_of_int (Total (Hits response)).

(** ** The library boundary

    The collectors talk to [net/url], [net/http], [go-kit/log] and
    [prometheus/client_golang].  Each module below holds the part of one
    package that the collectors touch, named as in Go. *)

Module url.
(** [url.URL], with the fields the collectors read or write. *)
Record URL : Type := mkURL {
  Scheme : string;
  Host : string;
  Path : string
}.

(** [u.Path = p] on a copy of [u]. *)
Definition with_Path (u : URL) (p : string) : URL :=
  {| Scheme := Scheme u; Host := Host u; Path := p |}.
End url.

Module http.
Definition StatusOK : Z := 200.

(** [http.Client]: a client is told apart by its configuration.  The
    zero value [http.Client{}] has the default transport and no
    timeout. *)
Record Client : Type := mkClient {
  Transport : option string;
  Timeout : Z
}.

Definition zero_Client : Client := {| Transport := None; Timeout := 0 |}.

Record Request : Type := mkRequest {
  Method : string;
  URL : string;
  Header : list (string * string);
  ReqBody : option string
}.

(** [http.NewRequest(method, url, body)]: no header set yet. *)
Definition NewRequest (method url : string) (body : option string) : Request :=
  {| Method := method; URL := url; Header := []; ReqBody := body |}.

(** [req.Header.Set(key, value)]. *)
Definition Header_Set (req : Request) (key value : string) : Request :=
  {| Method := Method req; URL := URL req;
     Header := (key, value) :: filter (fun kv => kv.1 ≠ key) (Header req);
     ReqBody := ReqBody req |}.

(** A response body: the bytes it delivers, and what [Close] will
    return ([None] is a [nil] error). *)
Record ReadCloser : Type := mkReadCloser {
  content : string;
  close_error : option string
}.

Record Response : Type := mkResponse {
  StatusCode : Z;
  Body : ReadCloser
}.
End http.

Module log.
Record Logger : Type := mkLogger { sink : string }.
Inductive Level : Type := Debug | Info | Warn | Error.
End log.

(** Go [error] values met by the collectors: the two built with
    [fmt.Errorf], and the ones handed back by a library call. *)
Inductive error : Type :=
  | LibraryError (msg : string)
  | FailedToGet (u : url.URL) (err : error)
  | RequestFailedWithCode (code : Z).

Module prometheus.
Inductive ValueType : Type := CounterValue | GaugeValue | UntypedValue.

(** A descriptor without labels ([nil, nil] in every [NewDesc] call of
    the collectors). *)
Record Desc : Type := mkDesc {
  fqName : string;
  help : string
}.

Definition NewDesc (fqName help : string) : Desc :=
  {| fqName := fqName; help := help |}.

Definition BuildFQName (namespace subsystem name : string) : string :=
  if decide (name = "") then ""
  else if decide (namespace ≠ "" ∧ subsystem ≠ "") then
    namespace +:+ "_" +:+ subsystem +:+ "_" +:+ name
  else if decide (namespace ≠ "") then namespace +:+ "_" +:+ name
  else if decide (subsystem ≠ "") then subsystem +:+ "_" +:+ name
  else name.

Record Opts : Type := mkOpts { Name : string; Help : string }.

(** A gauge and a counter are objects owned by the collector: a
    descriptor fixed at creation and a current value. *)
Record Gauge : Type := mkGauge { gauge_Desc : Desc; gauge_value : Z }.
Record Counter : Type := mkCounter { counter_Desc : Desc; counter_value : Z }.

Definition NewGauge (o : Opts) : Gauge :=
  {| gauge_Desc := NewDesc (Name o) (Help o); gauge_value := 0 |}.
Definition NewCounter (o : Opts) : Counter :=
  {| counter_Desc := NewDesc (Name o) (Help o); counter_value := 0 |}.

Definition Set_ (g : Gauge) (v : Z) : Gauge :=
  {| gauge_Desc := gauge_Desc g; gauge_value := v |}.
Definition Inc (c : Counter) : Counter :=
  {| counter_Desc := counter_Desc c; counter_value := counter_value c + 1 |}.

(** The three metric objects every collector owns.  Sending one of
    them on the channel sends the object itself, not a copy of its
    value. *)
Inductive Own : Type := own_up | own_totalScrapes | own_jsonParseFailures.

(** What travels on the [chan<- prometheus.Metric]. *)
Inductive Metric : Type :=
  | ConstMetric (desc : Desc) (valueType : ValueType) (value : Z)
  | OwnMetric (o : Own).
End prometheus.

(** ** Effects

    What a method does besides returning: it changes the collector it is
    called on, and it acts on the outside.  The outside actions are kept,
    in the order they happen, as a list of events. *)

Inductive Event : Type :=
  | EvInc (o : prometheus.Own)
  | EvSet (o : prometheus.Own) (v : Z)
  | EvDo (client : http.Client) (req : http.Request)
  | EvDecode (body : string)
  | EvClose (body : http.ReadCloser)
  | EvLog (logger : log.Logger) (lvl : log.Level) (msg : string) (err : error)
  | EvValue (desc : prometheus.Desc)
  | EvSend (m : prometheus.Metric).

(** The network as one [Collect] call finds it: what a client gets back
    for a request ([inl] is the error of [client.Do]). *)
Definition RoundTrip : Type :=
  http.Client -> http.Request -> string + http.Response.

Definition M (S A : Type) : Type := S -> A * S * list Event.

Definition run {S A} (m : M S A) (s : S) : A * S * list Event := m s.

Global Instance M_ret {S} : MRet (M S) := fun A a s => (a, s, []).

Global Instance M_bind {S} : MBind (M S) := fun A B k m s =>
  let '(a, s1, t1) := m s in
  let '(b, s2, t2) := k a s1 in
  (b, s2, t1 ++ t2).

Definition get {S} : M S S := fun s => (s, s, []).
Definition put {S} (s : S) : M S unit := fun _ => (tt, s, []).
Definition emit {S} (e : Event) : M S unit := fun s => (tt, s, [e]).

(** [defer deferred body]: [body] runs to its [return], whose value is
    fixed at that point; [deferred] runs next; the caller then gets the
    value. *)
Definition defer {S A} (deferred : M S unit) (body : M S A) : M S A :=
  a ← body; deferred;; mret a.

(** [for _, x := range l { body }] over a slice. *)
Fixpoint for_range {S A} (l : list A) (body : A -> M S unit) : M S unit :=
  match l with
  | [] => mret tt
  | x :: l => body x;; for_range l body
  end.

(** State, result and events of a run. *)
Definition state_of {S A} (r : A * S * list Event) : S := r.1.2.
Definition result_of {S A} (r : A * S * list Event) : A := r.1.1.
Definition events_of {S A} (r : A * S * list Event) : list Event := r.2.

(** The metrics sent on the channel, in order. *)
Definition sent (t : list Event) : list prometheus.Metric :=
  omap (fun e => match e with EvSend m => Some m | _ => None end) t.

(** The descriptors whose [Value] function was called, in order. *)
Definition valued (t : list Event) : list prometheus.Desc :=
  omap (fun e => match e with EvValue d => Some d | _ => None end) t.

(** JSON decoding into a value of type [R], as [Decode(data)] does it:
    from the body read and the value [data] points to, the value left
    there and the error returned. *)
Definition Decoder (R : Type) : Type := string -> R -> R * option error.


(** ** Library calls as effects *)

(** [client.Do(req)]: one round trip attempted by [client]. *)
Definition client_Do {S} (rt : RoundTrip) (client : http.Client)
    (req : http.Request) : M S (string + http.Response) :=
  emit (EvDo client req);; mret (rt client req).

(** [client.Get(url)] is [client.Do] of a [GET] request without body. *)
Definition client_Get {S} (rt : RoundTrip) (client : http.Client)
    (url : string) : M S (string + http.Response) :=
  client_Do rt client (http.NewRequest "GET" url None).

(** [body.Close()]. *)
Definition Body_Close {S} (body : http.ReadCloser) : M S (option error) :=
  emit (EvClose body);; mret (LibraryError <$> http.close_error body).

(** [json.NewDecoder(body).Decode(data)]. *)
Definition json_Decode {S R} (decode : Decoder R) (body : http.ReadCloser)
    (data : R) : M S (R * option error) :=
  emit (EvDecode (http.content body));; mret (decode (http.content body) data).

(** [level.Warn(logger).Log("msg", msg, "err", err)]; what [Log] returns
    is dropped by every caller. *)
Definition Warn_Log {S} (logger : log.Logger) (msg : string) (err : error)
    : M S unit :=
  emit (EvLog logger log.Warn msg err).

(** [ch <- m]. *)
Definition send {S} (m : prometheus.Metric) : M S unit := emit (EvSend m).

(** ** The tasks collector *)

Module Tasks.

Record taskMetric : Type := mkTaskMetric {
  Type_ : prometheus.ValueType;
  Desc : prometheus.Desc;
  Value : TasksResponse -> Z
}.

Record t : Type := mk {
  logger : log.Logger;
  client : http.Client;
  url : url.URL;
  up : prometheus.Gauge;
  totalScrapes : prometheus.Counter;
  jsonParseFailures : prometheus.Counter;
  taskMetrics : list taskMetric
}.

(** [s.up.Set(v)], [s.totalScrapes.Inc()], [s.jsonParseFailures.Inc()]. *)
Definition up_Set (v : Z) : M t unit :=
  s ← get;
  put (mk (logger s) (client s) (url s) (prometheus.Set_ (up s) v)
          (totalScrapes s) (jsonParseFailures s) (taskMetrics s));;
  emit (EvSet prometheus.own_up v).

Definition totalScrapes_Inc : M t unit :=
  s ← get;
  put (mk (logger s) (client s) (url s) (up s)
          (prometheus.Inc (totalScrapes s)) (jsonParseFailures s)
          (taskMetrics s));;
  emit (EvInc prometheus.own_totalScrapes).

Definition jsonParseFailures_Inc : M t unit :=
  s ← get;
  put (mk (logger s) (client s) (url s) (up s) (totalScrapes s)
          (prometheus.Inc (jsonParseFailures s)) (taskMetrics s));;
  emit (EvInc prometheus.own_jsonParseFailures).

Section Collector.

(** [namespace] is a constant of the package declared outside the file;
    [path.Join], [URL.String] and the JSON decoder are the
    library's. *)
Context (namespace : string).
Context (path_Join : string -> string -> string).
Context (URL_String : url.URL -> string).
Context (Decode : Decoder TasksResponse).

Definition NewTasks (logger : log.Logger) (client : http.Client)
    (url : url.URL) : t :=
  let subsystem := "tasks" in
  {| logger := logger;
     client := client;
     url := url;
     up := prometheus.NewGauge
       {| prometheus.Name := prometheus.BuildFQName namespace subsystem "up";
          prometheus.Help :=
            "Was the last scrape of the ElasticSearch tasks endpoint successful." |};
     totalScrapes := prometheus.NewCounter
       {| prometheus.Name :=
            prometheus.BuildFQName namespace subsystem "total_scrapes";
          prometheus.Help := "Current total ElasticSearch tasks scrapes." |};
     jsonParseFailures := prometheus.NewCounter
       {| prometheus.Name :=
            prometheus.BuildFQName namespace subsystem "json_parse_failures";
          prometheus.Help := "Number of errors while parsing JSON." |};
     taskMetrics :=
       [ {| Type_ := prometheus.GaugeValue;
            Desc := prometheus.NewDesc
              (prometheus.BuildFQName namespace subsystem "total")
              "Number of tasks";
            Value := total_Value |};
         {| Type_ := prometheus.GaugeValue;
            Desc := prometheus.NewDesc
              (prometheus.BuildFQName namespace subsystem "total_gt_1s")
              "Number of tasks greater then 1 second";
            Value := total_gt_1s_Value |} ] |}.

(** The descriptors sent on the channel, in order. *)
Definition Describe (s : t) : list prometheus.Desc :=
  (Desc <$> taskMetrics s)
  ++ [ prometheus.gauge_Desc (up s);
       prometheus.counter_Desc (totalScrapes s);
       prometheus.counter_Desc (jsonParseFailures s) ].

(** [data] is the value behind the pointer handed in; the value left
    there comes back with the error. *)
Definition getAndParseURL (rt : RoundTrip) (u : url.URL)
    (data : TasksResponse) : M t (TasksResponse * option error) :=
  s ← get;
  res_err ← client_Get rt (client s) (URL_String u);
  match res_err with
  | inl err => mret (data, Some (FailedToGet u (LibraryError err)))
  | inr res =>
      defer
        (err ← Body_Close (http.Body res);
         match err with
         | Some err => Warn_Log (logger s) "failed to close http.Client" err
         | None => mret tt
         end)
        (if decide (http.StatusCode res ≠ http.StatusOK) then
           mret (data, Some (RequestFailedWithCode (http.StatusCode res)))
         else
           '(data, err) ← json_Decode Decode (http.Body res) data;
           match err with
           | Some err => jsonParseFailures_Inc;; mret (data, Some err)
           | None => mret (data, None)
           end)
  end.

Definition fetchAndDecodeTasks (rt : RoundTrip)
    : M t (TasksResponse * option error) :=
  s ← get;
  let u := url s in
  let u := url.with_Path u (path_Join (url.Path u) "/_tasks") in
  let srr := {| Nodes := ∅ |} in
  '(srr, err) ← getAndParseURL rt u srr;
  match err with
  | Some err => mret (srr, Some err)
  | None => mret (srr, None)
  end.

Definition Collect (rt : RoundTrip) : M t unit :=
  totalScrapes_Inc;;
  defer
    (send (prometheus.OwnMetric prometheus.own_up);;
     send (prometheus.OwnMetric prometheus.own_totalScrapes);;
     send (prometheus.OwnMetric prometheus.own_jsonParseFailures))
    ('(tasksResp, err) ← fetchAndDecodeTasks rt;
     match err with
     | Some err =>
         up_Set 0;;
         s ← get;
         Warn_Log (logger s) "failed to fetch and decode tasks" err
     | None =>
         up_Set 1;;
         s ← get;
         for_range (taskMetrics s) (fun metric =>
           emit (EvValue (Desc metric));;
           send (prometheus.ConstMetric (Desc metric) (Type_ metric)
                   (Value metric tasksResp)))
     end).

End Collector.
End Tasks.

(** ** The error-query collector *)

Module LogsQueries.

Record networkDiscoveryErrorQueryMetric : Type :=
  mkNetworkDiscoveryErrorQueryMetric {
    Type_ : prometheus.ValueType;
    Desc : prometheus.Desc;
    Value : NetworkDiscoveryErrorQueryResponse -> Z
  }.

Record t : Type := mk {
  logger : log.Logger;
  client : http.Client;
  url : url.URL;
  up : prometheus.Gauge;
  totalScrapes : prometheus.Counter;
  jsonParseFailures : prometheus.Counter;
  networkDiscoveryErrorQueryMetrics : list networkDiscoveryErrorQueryMetric
}.

Definition up_Set (v : Z) : M t unit :=
  s ← get;
  put (mk (logger s) (client s) (url s) (prometheus.Set_ (up s) v)
          (totalScrapes s) (jsonParseFailures s)
          (networkDiscoveryErrorQueryMetrics s));;
  emit (EvSet prometheus.own_up v).

Definition totalScrapes_Inc : M t unit :=
  s ← get;
  put (mk (logger s) (client s) (url s) (up s)
          (prometheus.Inc (totalScrapes s)) (jsonParseFailures s)
          (networkDiscoveryErrorQueryMetrics s));;
  emit (EvInc prometheus.own_totalScrapes).

Definition jsonParseFailures_Inc : M t unit :=
  s ← get;
  put (mk (logger s) (client s) (url s) (up s) (totalScrapes s)
          (prometheus.Inc (jsonParseFailures s))
          (networkDiscoveryErrorQueryMetrics s));;
  emit (EvInc prometheus.own_jsonParseFailures).

(** The query document of [getNetworkDiscoveryReq], line by line: the
    number of leading tabs and the text, where [q s] is [s] between
    double quotes. *)
Definition dquote : string := String (Ascii.ascii_of_nat 34) EmptyString.
Definition tab : string := String (Ascii.ascii_of_nat 9) EmptyString.
Definition newline : string := String (Ascii.ascii_of_nat 10) EmptyString.

Definition q (s : string) : string := dquote +:+ s +:+ dquote.

Definition jsonStr_lines : list (nat * string) :=
  ([ (0, "{");
    (1, q "query" +:+ ": {");
    (2, q "bool" +:+ ": {");
    (3, q "must" +:+ ": [{");
    (4, q "match_all" +:+ ": {}");
    (3, "}, {");
    (4, q "bool" +:+ ": {");
    (5, q "should" +:+ ": [{");
    (6, q "match_phrase" +:+ ": {");
    (7, q "message" +:+ ": " +:+ q "send message failed");
    (6, "}");
    (5, "}, {");
    (6, q "match_phrase" +:+ ": {");
    (7, q "message" +:+ ": " +:+ q "NodeNotConnectedException");
    (6, "}");
    (5, "}]");
    (4, "}");
    (3, "}, {");
    (4, q "range" +:+ ": {");
    (5, q "@timestamp" +:+ ": {");
    (6, q "gt" +:+ " :  " +:+ q "now-5m" +:+ ",");
    (6, q "format" +:+ ": " +:+ q "epoch_millis");
    (5, "}");
    (4, "}");
    (3, "}],");
    (3, q "must_not" +:+ ": [{");
    (4, q "match_phrase" +:+ ": {");
    (5, q "message" +:+ ": {");
    (6, q "query" +:+ ": " +:+ q "0.0.0.0");
    (5, "}");
    (4, "}");
    (3, "}]");
    (2, "}");
    (1, "}");
    (0, "}") ])%nat.

Definition jsonStr : string :=
  String.concat newline
    ((fun l => String.concat "" (replicate l.1 tab) +:+ l.2) <$> jsonStr_lines).

Section Collector.

Context (namespace : string).
Context (path_Join : string -> string -> string).
Context (URL_String : url.URL -> string).
Context (Decode : Decoder NetworkDiscoveryErrorQueryResponse).

Definition NewLogsQueries (logger : log.Logger) (client : http.Client)
    (url : url.URL) : t :=
  let subsystem := "queries" in
  {| logger := logger;
     client := client;
     url := url;
     up := prometheus.NewGauge
       {| prometheus.Name := prometheus.BuildFQName namespace subsystem "up";
          prometheus.Help :=
            "Was the last scrape of the ElasticSearch tasks endpoint successful." |};
     totalScrapes := prometheus.NewCounter
       {| prometheus.Name :=
            prometheus.BuildFQName namespace subsystem "total_scrapes";
          prometheus.Help := "Current total ElasticSearch tasks scrapes." |};
     jsonParseFailures := prometheus.NewCounter
       {| prometheus.Name :=
            prometheus.BuildFQName namespace subsystem "json_parse_failures";
          prometheus.Help := "Number of errors while parsing JSON." |};
     networkDiscoveryErrorQueryMetrics :=
       [ {| Type_ := prometheus.GaugeValue;
            Desc := prometheus.NewDesc
              (prometheus.BuildFQName namespace subsystem
                 "total_network_discovery_error")
              "Number of total network discovery";
            Value := total_network_discovery_error_Value |} ] |}.

Definition Describe (s : t) : list prometheus.Desc :=
  (Desc <$> networkDiscoveryErrorQueryMetrics s)
  ++ [ prometheus.gauge_Desc (up s);
       prometheus.counter_Desc (totalScrapes s);
       prometheus.counter_Desc (jsonParseFailures s) ].

(** The request is sent by a client made on the spot,
    [client := &http.Client{}]; the field [client] of the collector is
    not read.  The error of [http.NewRequest] is dropped by the source;
    the request is taken to be built, as it is for the string of a
    parsed URL. *)
Definition getNetworkDiscoveryReq (rt : RoundTrip) (u : url.URL)
    : M t (string + http.Response) :=
  let req := http.NewRequest "POST" (URL_String u) (Some jsonStr) in
  let req := http.Header_Set req "Content-Type" "application/json" in
  let client := http.zero_Client in
  client_Do rt client req.

Definition getAndParseURL (rt : RoundTrip) (u : url.URL)
    (data : NetworkDiscoveryErrorQueryResponse)
    : M t (NetworkDiscoveryErrorQueryResponse * option error) :=
  s ← get;
  res_err ← getNetworkDiscoveryReq rt u;
  match res_err with
  | inl err => mret (data, Some (FailedToGet u (LibraryError err)))
  | inr res =>
      defer
        (err ← Body_Close (http.Body res);
         match err with
         | Some err => Warn_Log (logger s) "failed to close http.Client" err
         | None => mret tt
         end)
        (if decide (http.StatusCode res ≠ http.StatusOK) then
           mret (data, Some (RequestFailedWithCode (http.StatusCode res)))
         else
           '(data, err) ← json_Decode Decode (http.Body res) data;
           match err with
           | Some err => jsonParseFailures_Inc;; mret (data, Some err)
           | None => mret (data, None)
           end)
  end.

Definition fetchAndDecodeTasks (rt : RoundTrip)
    : M t (NetworkDiscoveryErrorQueryResponse * option error) :=
  s ← get;
  let u := url s in
  let u := url.with_Path u (path_Join (url.Path u) "/elasticsearch-*/_search") in
  let srr := {| Hits := {| Total := 0 |} |} in
  '(srr, err) ← getAndParseURL rt u srr;
  match err with
  | Some err => mret (srr, Some err)
  | None => mret (srr, None)
  end.

Definition Collect (rt : RoundTrip) : M t unit :=
  totalScrapes_Inc;;
  defer
    (send (prometheus.OwnMetric prometheus.own_up);;
     send (prometheus.OwnMetric prometheus.own_totalScrapes);;
     send (prometheus.OwnMetric prometheus.own_jsonParseFailures))
    ('(networkDiscoveryResp, err) ← fetchAndDecodeTasks rt;
     match err with
     | Some err =>
         up_Set 0;;
         s ← get;
         Warn_Log (logger s) "failed to fetch and decode tasks" err
     | None =>
         up_Set 1;;
         s ← get;
         for_range (networkDiscoveryErrorQueryMetrics s) (fun metric =>
           emit (EvValue (Desc metric));;
           send (prometheus.ConstMetric (Desc metric) (Type_ metric)
                   (Value metric networkDiscoveryResp)))
     end).

End Collector.
End LogsQueries.

(** ** The registry's side *)

(** The registry pulls a collector again and again; each pull meets the
    network in some condition. *)
Fixpoint pulls {S} (Collect : RoundTrip -> M S unit) (rts : list RoundTrip)
    : M S unit :=
  match rts with
  | [] => mret tt
  | rt :: rts => Collect rt;; pulls Collect rts
  end.

(** The three bookkeeping metrics, in the order [Collect] sends them. *)
Definition bookkeeping : list prometheus.Metric :=
  [ prometheus.OwnMetric prometheus.own_up;
    prometheus.OwnMetric prometheus.own_totalScrapes;
    prometheus.OwnMetric prometheus.own_jsonParseFailures ].

Definition is_ConstMetric (m : prometheus.Metric) : Prop :=
  match m with prometheus.ConstMetric _ _ _ => True | _ => False end.

(** The descriptor under which a metric met on the channel is reported:
    its own for a constant metric, the descriptor of the collector's
    object otherwise. *)
Definition Metric_Desc (up : prometheus.Gauge)
    (totalScrapes jsonParseFailures : prometheus.Counter)
    (m : prometheus.Metric) : prometheus.Desc :=
  match m with
  | prometheus.ConstMetric d _ _ => d
  | prometheus.OwnMetric prometheus.own_up => prometheus.gauge_Desc up
  | prometheus.OwnMetric prometheus.own_totalScrapes =>
      prometheus.counter_Desc totalScrapes
  | prometheus.OwnMetric prometheus.own_jsonParseFailures =>
      prometheus.counter_Desc jsonParseFailures
  end.

(** How often an event of a given kind occurs in a trace. *)
Definition is_Inc (o : prometheus.Own) (e : Event) : bool :=
  match e, o with
  | EvInc prometheus.own_up, prometheus.own_up
  | EvInc prometheus.own_totalScrapes, prometheus.own_totalScrapes
  | EvInc prometheus.own_jsonParseFailures, prometheus.own_jsonParseFailures =>
      true
  | _, _ => false
  end.

Definition count_Inc (o : prometheus.Own) (t : list Event) : nat :=
  length (List.filter (is_Inc o) t).

Definition is_Close (e : Event) : bool :=
  match e with EvClose _ => true | _ => false end.
Definition is_Do (e : Event) : bool :=
  match e with EvDo _ _ => true | _ => false end.
Definition is_Log (e : Event) : bool :=
  match e with EvLog _ _ _ _ => true | _ => false end.

Definition closes (t : list Event) : list Event := List.filter is_Close t.
Definition round_trips (t : list Event) : list Event := List.filter is_Do t.
Definition logged (t : list Event) : list Event := List.filter is_Log t.

(** ** The outcomes of a pull, as the specification names them *)

Inductive Outcome (R : Type) : Type :=
  | TransportError (err : string)
  | StatusError (code : Z)
  | DecodeError (err : error)
  | Decoded (data : R).
Arguments TransportError {R} err.
Arguments StatusError {R} code.
Arguments DecodeError {R} err.
Arguments Decoded {R} data.

(** The outcome that a reply of the network leads to: no response, a
    response whose status is not 200, a body that does not decode into
    [zero], or a decoded value. *)
Definition outcome {R} (decode : Decoder R) (zero : R)
    (reply : string + http.Response) : Outcome R :=
  match reply with
  | inl err => TransportError err
  | inr res =>
      if decide (http.StatusCode res = 200) then
        match decode (http.content (http.Body res)) zero with
        | (_, Some err) => DecodeError err
        | (data, None) => Decoded data
        end
      else StatusError (http.StatusCode res)
  end.

Definition failed {R} (o : Outcome R) : Prop :=
  match o with Decoded _ => False | _ => True end.

Definition decode_failed {R} (o : Outcome R) : bool :=
  match o with DecodeError _ => true | _ => false end.

(** The same network, except that closing a response body never fails. *)
Definition closing_cleanly (rt : RoundTrip) : RoundTrip := fun client req =>
  match rt client req with
  | inl err => inl err
  | inr res =>
      inr {| http.StatusCode := http.StatusCode res;
             http.Body := {| http.content := http.content (http.Body res);
                             http.close_error := None |} |}
  end.

(** The target of each collector's request under the base URL [base]. *)
Definition tasks_target (path_Join : string -> string -> string)
    (base : url.URL) : url.URL :=
  url.with_Path base (path_Join (url.Path base) "/_tasks").

Definition queries_target (path_Join : string -> string -> string)
    (base : url.URL) : url.URL :=
  url.with_Path base (path_Join (url.Path base) "/elasticsearch-*/_search").

(** The request of the tasks collector: a plain [GET]. *)
Definition tasks_request (path_Join : string -> string -> string)
    (URL_String : url.URL -> string) (base : url.URL) : http.Request :=
  {| http.Method := "GET";
     http.URL := URL_String (tasks_target path_Join base);
     http.Header := [];
     http.ReqBody := None |}.

(** The request of the error-query collector: a [POST] of the query
    document, declared as JSON. *)
Definition queries_request (path_Join : string -> string -> string)
    (URL_String : url.URL -> string) (base : url.URL) : http.Request :=
  {| http.Method := "POST";
     http.URL := URL_String (queries_target path_Join base);
     http.Header := [("Content-Type", "application/json")];
     http.ReqBody := Some LogsQueries.jsonStr |}.

(** ** Counting tasks, as the specification words it *)

(** Running longer than one second: the running time in nanoseconds,
    divided by 1,000,000 with integer division, exceeds 1000. *)
Definition longer_than_1s (r : Z) : Prop := r ÷ 1000000 > 1000.

Global Instance longer_than_1s_dec r : Decision (longer_than_1s r).
Proof. unfold longer_than_1s. apply _. Defined.

(** The tasks of a node that run longer than one second. *)
Definition slow_tasks (node : Node) : gmap string Task :=
  filter (fun kt => longer_than_1s (RunningTimeInNanos kt.2)) (Tasks node).

(** The sum, over the nodes of a response, of a number per node. *)
Definition sum_over_nodes (f : Node -> nat) (tasks : TasksResponse) : nat :=
  sum_list_with (fun kn => f kn.2) (map_to_list (Nodes tasks)).

Definition task_count (tasks : TasksResponse) : nat :=
  sum_over_nodes (fun node => size (Tasks node)) tasks.

Definition slow_task_count (tasks : TasksResponse) : nat :=
  sum_over_nodes (fun node => size (slow_tasks node)) tasks.

(** [visited] is a way for [range] to go through the map [m]. *)
Definition ranges_over {A} (visited : list (string * A)) (m : gmap string A)
    : Prop :=
  visited ≡ₚ map_to_list m.

(** The reply each collector gets from the network for the request it
    sends, and the outcome of the pull. *)
Definition tasks_reply (path_Join : string -> string -> string)
    (URL_String : url.URL -> string) (rt : RoundTrip) (s : Tasks.t)
    : string + http.Response :=
  rt (Tasks.client s) (tasks_request path_Join URL_String (Tasks.url s)).

Definition queries_reply (path_Join : string -> string -> string)
    (URL_String : url.URL -> string) (rt : RoundTrip) (s : LogsQueries.t)
    : string + http.Response :=
  rt http.zero_Client
     (queries_request path_Join URL_String (LogsQueries.url s)).

Definition tasks_outcome (path_Join : string -> string -> string)
    (URL_String : url.URL -> string) (Decode : Decoder TasksResponse)
    (rt : RoundTrip) (s : Tasks.t) : Outcome TasksResponse :=
  outcome Decode {| Nodes := ∅ |} (tasks_reply path_Join URL_String rt s).

Definition queries_outcome (path_Join : string -> string -> string)
    (URL_String : url.URL -> string)
    (Decode : Decoder NetworkDiscoveryErrorQueryResponse)
    (rt : RoundTrip) (s : LogsQueries.t)
    : Outcome NetworkDiscoveryErrorQueryResponse :=
  outcome Decode {| Hits := {| Total := 0 |} |}
    (queries_reply path_Join URL_String rt s).

(** ** A pull, event by event

    The events of one [getAndParseURL] and of one [Collect], written out
    by cases on the reply of the network.  The two collectors share
    them; they differ in the parameters of the section. *)

Section Pull.

Context {R : Type}.
Context (logger : log.Logger) (client : http.Client) (req : http.Request).
Context (target : url.URL) (decode : Decoder R) (zero : R).
Context (metrics : list (prometheus.Desc * prometheus.ValueType * (R -> Z))).

Definition close_events (body : http.ReadCloser) : list Event :=
  [EvClose body] ++
  match http.close_error body with
  | Some err =>
      [EvLog logger log.Warn "failed to close http.Client" (LibraryError err)]
  | None => []
  end.

Definition fetch_events (data : R) (reply : string + http.Response)
    : list Event :=
  [EvDo client req] ++
  match reply with
  | inl _ => []
  | inr res =>
      (if decide (http.StatusCode res = 200) then
         [EvDecode (http.content (http.Body res))] ++
         match decode (http.content (http.Body res)) data with
         | (_, Some _) => [EvInc prometheus.own_jsonParseFailures]
         | (_, None) => []
         end
       else [])
      ++ close_events (http.Body res)
  end.

Definition fetch_result (data : R) (reply : string + http.Response)
    : R * option error :=
  match reply with
  | inl err => (data, Some (FailedToGet target (LibraryError err)))
  | inr res =>
      if decide (http.StatusCode res = 200) then
        decode (http.content (http.Body res)) data
      else (data, Some (RequestFailedWithCode (http.StatusCode res)))
  end.

Definition const_metrics (data : R) : list prometheus.Metric :=
  (fun m => prometheus.ConstMetric m.1.1 m.1.2 (m.2 data)) <$> metrics.

Definition metric_events (data : R) : list Event :=
  concat ((fun m =>
             [EvValue m.1.1;
              EvSend (prometheus.ConstMetric m.1.1 m.1.2 (m.2 data))])
          <$> metrics).

Definition pull_events (reply : string + http.Response) : list Event :=
  [EvInc prometheus.own_totalScrapes]
  ++ fetch_events zero reply
  ++ match fetch_result zero reply with
     | (_, Some err) =>
         [EvSet prometheus.own_up 0;
          EvLog logger log.Warn "failed to fetch and decode tasks" err]
     | (data, None) => [EvSet prometheus.own_up 1] ++ metric_events data
     end
  ++ (EvSend <$> bookkeeping).

(** The values of [up] and of a counter after the pull. *)
Definition up_after (reply : string + http.Response) : Z :=
  match fetch_result zero reply with
  | (_, Some _) => 0
  | (_, None) => 1
  end.

Definition parse_failures (reply : string + http.Response) : nat :=
  if decode_failed (outcome decode zero reply) then 1%nat else 0%nat.

End Pull.

(** The metric tables of the collectors, as triples. *)
Definition tasks_metrics (s : Tasks.t)
    : list (prometheus.Desc * prometheus.ValueType * (TasksResponse -> Z)) :=
  (fun m => (Tasks.Desc m, Tasks.Type_ m, Tasks.Value m))
  <$> Tasks.taskMetrics s.

Definition queries_metrics (s : LogsQueries.t)
    : list (prometheus.Desc * prometheus.ValueType
            * (NetworkDiscoveryErrorQueryResponse -> Z)) :=
  (fun m => (LogsQueries.Desc m, LogsQueries.Type_ m, LogsQueries.Value m))
  <$> LogsQueries.networkDiscoveryErrorQueryMetrics s.

Definition tasks_Metric_Desc (s : Tasks.t) : prometheus.Metric -> prometheus.Desc :=
  Metric_Desc (Tasks.up s) (Tasks.totalScrapes s) (Tasks.jsonParseFailures s).

Definition queries_Metric_Desc (s : LogsQueries.t)
    : prometheus.Metric -> prometheus.Desc :=
  Metric_Desc (LogsQueries.up s) (LogsQueries.totalScrapes s)
    (LogsQueries.jsonParseFailures s).

(** ** Sample inputs

    A cluster answering on [http://localhost:9200], a client with a
    transport and a timeout of its own, and the replies used to exercise
    the collectors. *)

Definition sample_task (running_time_in_nanos : Z) : Task :=
  {| Node_ := "node-1";
     Id := 42;
     Type_ := "transport";
     Action := "indices:data/read/search";
     StartTimeInMillis := 1500000000000;
     RunningTimeInNanos := running_time_in_nanos;
     Cancellable := true;
     ParentTaskId := "";
     Headers := ∅ |}.

Definition sample_node (tasks : gmap string Task) : Node :=
  {| Name := "node-1";
     TransportAddress := "127.0.0.1:9300";
     Host := "127.0.0.1";
     Ip := "127.0.0.1:9300";
     Roles := ["master"; "data"];
     Tasks := tasks |}.

(** One node with two tasks, running for 500 ms and for 1500 ms, and a
    second node with a task at exactly 1000 ms. *)
Definition sample_tasks : TasksResponse :=
  {| Nodes :=
       <[ "node-1" :=
            sample_node (<[ "node-1:1" := sample_task 500000000 ]>
                         {[ "node-1:2" := sample_task 1500000000 ]}) ]>
       {[ "node-2" :=
            sample_node {[ "node-2:1" := sample_task 1000000000 ]} ]} |}.

(** A response holding one task. *)
Definition one_task (running_time_in_nanos : Z) : TasksResponse :=
  {| Nodes :=
       {[ "node-1" :=
            sample_node {[ "node-1:1" := sample_task running_time_in_nanos ]} ]} |}.

Definition sample_path_Join (a b : string) : string := a +:+ b.

Definition sample_URL_String (u : url.URL) : string :=
  url.Scheme u +:+ "://" +:+ url.Host u +:+ url.Path u.

Definition sample_logger : log.Logger := {| log.sink := "stderr" |}.

Definition sample_client : http.Client :=
  {| http.Transport := Some "tls"; http.Timeout := 5000000000 |}.

Definition sample_base : url.URL :=
  {| url.Scheme := "http"; url.Host := "localhost:9200"; url.Path := "" |}.

(** The documents [{"nodes":{}}] and [{"hits":{"total": 7}}]. *)
Definition no_nodes_json : string :=
  "{" +:+ LogsQueries.q "nodes" +:+ ":{}}".

Definition seven_hits_json : string :=
  "{" +:+ LogsQueries.q "hits" +:+ ":{" +:+ LogsQueries.q "total" +:+ ": 7}}".

(** Decoders that know one document each and reject the rest. *)
Definition sample_DecodeT : Decoder TasksResponse := fun body data =>
  if decide (body = no_nodes_json) then ({| Nodes := ∅ |}, None)
  else (data, Some (LibraryError "invalid character")).

Definition sample_DecodeQ : Decoder NetworkDiscoveryErrorQueryResponse :=
  fun body data =>
    if decide (body = seven_hits_json) then ({| Hits := {| Total := 7 |} |}, None)
    else (data, Some (LibraryError "invalid character")).

(** A network that answers every request alike, and one that answers
    none. *)
Definition replies (status : Z) (body : string) (close_error : option string)
    : RoundTrip :=
  fun _ _ =>
    inr {| http.StatusCode := status;
           http.Body := {| http.content := body;
                           http.close_error := close_error |} |}.

Definition refuses : RoundTrip := fun _ _ => inl "connection refused".

Definition sample_Tasks : Tasks.t :=
  Tasks.NewTasks "elasticsearch" sample_logger sample_client sample_base.

Definition sample_LogsQueries : LogsQueries.t :=
  LogsQueries.NewLogsQueries "elasticsearch" sample_logger sample_client
    sample_base.

(** ** Changing a response *)

(** [node] with another task map. *)
Definition with_Tasks (node : Node) (tasks : gmap string Task) : Node :=
  {| Name := Name node;
     TransportAddress := TransportAddress node;
     Host := Host node;
     Ip := Ip node;
     Roles := Roles node;
     Tasks := tasks |}.

(** ** More readings of a trace *)

Definition is_Decode (e : Event) : bool :=
  match e with EvDecode _ => true | _ => false end.

(** What a pull does to get its data: round trips, decoding, counting. *)
Definition is_fetching (e : Event) : bool :=
  match e with EvDo _ _ | EvDecode _ | EvInc _ => true | _ => false end.

(** What a pull reports: the liveness it sets, the extraction functions
    it calls, the metrics it sends. *)
Definition is_reporting (e : Event) : bool :=
  match e with EvSet _ _ | EvValue _ | EvSend _ => true | _ => false end.

Definition decodes (t : list Event) : list Event := List.filter is_Decode t.
Definition fetching (t : list Event) : list Event := List.filter is_fetching t.
Definition reporting (t : list Event) : list Event :=
  List.filter is_reporting t.

(** The error a failed pull ends with: for a request that got no
    response, the target and the cause; for a status other than 200, the
    status; for a body that does not decode, the decoder's error. *)
Definition outcome_error {R} (target : url.URL) (o : Outcome R)
    : option error :=
  match o with
  | TransportError err => Some (FailedToGet target (LibraryError err))
  | StatusError code => Some (RequestFailedWithCode code)
  | DecodeError err => Some err
  | Decoded _ => None
  end.

(** The warnings of a pull: one when closing the body failed, one when
    the pull failed. *)
Definition close_warning (logger : log.Logger) (reply : string + http.Response)
    : list Event :=
  match reply with
  | inr res =>
      match http.close_error (http.Body res) with
      | Some err =>
          [EvLog logger log.Warn "failed to close http.Client"
             (LibraryError err)]
      | None => []
      end
  | inl _ => []
  end.

Definition failure_warning (logger : log.Logger) (err : option error)
    : list Event :=
  match err with
  | Some err => [EvLog logger log.Warn "failed to fetch and decode tasks" err]
  | None => []
  end.

(** ** Proof automation *)

(** Unfolds the monad down to pairs. *)
Ltac step_M :=
  unfold run, defer, client_Get, client_Do, Body_Close, json_Decode,
    Warn_Log, send, get, put, emit, mbind, M_bind, mret, M_ret;
  cbn.

Ltac unfold_pull :=
  unfold pull_events, up_after, parse_failures, fetch_events, fetch_result,
    close_events, outcome, decode_failed, tasks_reply, queries_reply,
    tasks_request, queries_request, tasks_target, queries_target,
    http.NewRequest, http.Header_Set, http.StatusOK in *.

(** Case analysis on what the network replied and on what the decoder
    made of it. *)
Ltac reply_cases rt decode :=
  destruct (rt _ _) as [err|[code [content cerr]]]; cbn;
  [ | destruct cerr; cbn; repeat case_decide; try done; cbn;
      try (destruct (decode _ _) as [d [e|]]; cbn) ].

(** Reads a trace made of pieces piece by piece. *)
Create Rewrite HintDb trace.
Ltac read_trace := autorewrite with trace.


(** * Properties *)

(** ** Integer arithmetic and the conversion to [float64] *)

Lemma int_wrap_exact z : int_min ≤ z ≤ int_max → int_wrap z = z.
Proof.
  unfold int_min, int_max, int_wrap. intros Hz.
  rewrite Z.mod_small; lia.
Qed.

Lemma int_add_exact a b : int_min ≤ a + b ≤ int_max → int_add a b = a + b.
Proof. apply int_wrap_exact. Qed.

Lemma float64_of_int_exact z : Z.abs z < 2 ^ 53 → float64_of_int z = z.
Proof.
  intros Hz. unfold float64_of_int. cbv zeta.
  destruct (Z.leb_spec (Z.log2 (Z.abs z) - 52) 0) as [|Hlog]; [done|].
  exfalso.
  destruct (decide (Z.abs z = 0)) as [Hz0|Hz0].
  - rewrite Hz0 in Hlog. simpl in Hlog. lia.
  - assert (Z.log2 (Z.abs z) < 53) by (apply Z.log2_lt_pow2; lia). lia.
Qed.

Lemma float64_of_int_rounds a :
  0 < a → 0 < Z.log2 a - 52 →
  float64_of_int a
  = (a `div` 2 ^ (Z.log2 a - 52)
     + round_up (2 ^ (Z.log2 a - 52 - 1)) (a `div` 2 ^ (Z.log2 a - 52))
         (a `mod` 2 ^ (Z.log2 a - 52)))
    * 2 ^ (Z.log2 a - 52).
Proof.
  intros Ha He. unfold float64_of_int, round_up. cbv zeta.
  rewrite Z.abs_eq by lia.
  destruct (Z.leb_spec (Z.log2 a - 52) 0); [lia|].
  rewrite Z.sgn_pos, Z.mul_1_l by lia.
  rewrite Z.shiftr_div_pow2, Z.land_ones, !Z.shiftl_mul_pow2 by lia.
  rewrite Z.mul_1_l. destruct (_ || _); [reflexivity|].
  by rewrite Z.add_0_r.
Qed.

Lemma float64_of_int_small a :
  0 ≤ a → Z.log2 a - 52 ≤ 0 → float64_of_int a = a.
Proof.
  intros Ha He. unfold float64_of_int. cbv zeta. rewrite Z.abs_eq by lia.
  destruct (Z.leb_spec (Z.log2 a - 52) 0); [done|lia].
Qed.

Lemma round_up_bit half q r : 0 ≤ round_up half q r ≤ 1.
Proof. unfold round_up. destruct (_ || _); lia. Qed.

Lemma round_up_mono half q r r' :
  r ≤ r' → round_up half q r ≤ round_up half q r'.
Proof.
  unfold round_up. intros Hr.
  destruct (Z.ltb_spec half r), (Z.ltb_spec half r'),
    (Z.eqb_spec r half), (Z.eqb_spec r' half), (Z.odd q); cbn; lia.
Qed.

(** A converted value stays within the binade of its argument. *)
Lemma float64_of_int_binade a :
  0 < a → 2 ^ Z.log2 a ≤ float64_of_int a ≤ 2 ^ (Z.log2 a + 1).
Proof.
  intros Ha. pose proof (Z.log2_spec a Ha) as [Hlo Hhi].
  rewrite <- Z.add_1_r in Hhi.
  destruct (Z.le_gt_cases (Z.log2 a - 52) 0) as [He|He].
  - rewrite float64_of_int_small by lia. lia.
  - rewrite float64_of_int_rounds by lia.
    set (e := Z.log2 a - 52) in *.
    assert (Hk : Z.log2 a = e + 52) by lia. rewrite Hk in *.
    rewrite (Z.add_comm e 52) in *.
    replace (52 + e + 1) with (53 + e) in * by lia.
    rewrite !Z.pow_add_r in * by lia.
    assert (HP : 0 < 2 ^ e) by (apply Z.pow_pos_nonneg; lia).
    pose proof (round_up_bit (2 ^ (e - 1)) (a `div` 2 ^ e) (a `mod` 2 ^ e)).
    assert (2 ^ 52 ≤ a `div` 2 ^ e)
      by (apply Z.div_le_lower_bound; lia).
    assert (a `div` 2 ^ e < 2 ^ 53)
      by (apply Z.div_lt_upper_bound; lia).
    nia.
Qed.

Lemma float64_of_int_mono_binade a b :
  0 < a → a ≤ b → Z.log2 a = Z.log2 b →
  float64_of_int a ≤ float64_of_int b.
Proof.
  intros Ha Hab Hlog.
  destruct (Z.le_gt_cases (Z.log2 a - 52) 0) as [He|He].
  - rewrite !float64_of_int_small by lia. lia.
  - rewrite !float64_of_int_rounds by lia. rewrite <- Hlog.
    set (e := Z.log2 a - 52) in *.
    assert (HP : 0 < 2 ^ e) by (apply Z.pow_pos_nonneg; lia).
    apply Z.mul_le_mono_nonneg_r; [lia|].
    pose proof (Z.div_le_mono a b (2 ^ e) HP Hab) as Hq.
    pose proof (round_up_bit (2 ^ (e - 1)) (a `div` 2 ^ e) (a `mod` 2 ^ e)).
    pose proof (round_up_bit (2 ^ (e - 1)) (b `div` 2 ^ e) (b `mod` 2 ^ e)).
    destruct (Z.eq_dec (a `div` 2 ^ e) (b `div` 2 ^ e)) as [Heq|Hne]; [|lia].
    rewrite Heq. apply Z.add_le_mono_l, round_up_mono.
    pose proof (Z.div_mod a (2 ^ e)). pose proof (Z.div_mod b (2 ^ e)).
    rewrite Heq in *. lia.
Qed.

Lemma float64_of_int_mono a b :
  0 ≤ a → a ≤ b → float64_of_int a ≤ float64_of_int b.
Proof.
  intros Ha Hab.
  destruct (Z.eq_dec a 0) as [->|Hne].
  - destruct (Z.eq_dec b 0) as [->|Hb]; [done|].
    pose proof (float64_of_int_binade b ltac:(lia)) as [Hlo _].
    assert (0 < 2 ^ Z.log2 b) by (apply Z.pow_pos_nonneg; [lia|apply Z.log2_nonneg]).
    change (float64_of_int 0) with 0. lia.
  - pose proof (Z.log2_le_mono a b Hab) as Hlog.
    destruct (Z.eq_dec (Z.log2 a) (Z.log2 b)) as [Heq|Hlt].
    + apply float64_of_int_mono_binade; lia.
    + pose proof (float64_of_int_binade a ltac:(lia)) as [_ Hhi].
      pose proof (float64_of_int_binade b ltac:(lia)) as [Hlo _].
      assert (2 ^ (Z.log2 a + 1) ≤ 2 ^ Z.log2 b)
        by (apply Z.pow_le_mono_r; lia).
      lia.
Qed.

(** ** The extraction loops *)

Lemma gt_1s_spec task :
  gt_1s task = true ↔ longer_than_1s (RunningTimeInNanos task).
Proof.
  unfold gt_1s, longer_than_1s, int_div. cbv zeta. rewrite Z.ltb_lt. lia.
Qed.

Lemma longer_than_1s_threshold r : longer_than_1s r ↔ 1001000000 ≤ r.
Proof.
  unfold longer_than_1s. split; intros H.
  - destruct (Z.le_gt_cases 1001000000 r) as [|Hlt]; [done|]. exfalso.
    destruct (Z.le_gt_cases 0 r).
    + assert (r ÷ 1000000 < 1001) by (apply Z.quot_lt_upper_bound; lia). lia.
    + assert (r ÷ 1000000 ≤ 0) by (apply Z.quot_le_upper_bound; lia || idtac). lia.
  - assert (1001 ≤ r ÷ 1000000) by (apply Z.quot_le_lower_bound; lia). lia.
Qed.

Lemma total_loop_exact visited count :
  0 ≤ count →
  count + Z.of_nat (sum_list_with (λ kn, size (Tasks kn.2)) visited) ≤ int_max →
  total_loop visited count
  = count + Z.of_nat (sum_list_with (λ kn, size (Tasks kn.2)) visited).
Proof.
  revert count. induction visited as [|[k node] visited IH]; intros count H0 Hmax.
  - simpl. lia.
  - simpl in *. unfold total_loop in IH. unfold len_Tasks at 1. simpl.
    rewrite int_add_exact by (unfold int_min; lia).
    rewrite IH; lia.
Qed.

Lemma gt_1s_inner_exact visited count :
  0 ≤ count →
  count + Z.of_nat (length (filter (λ kt : string * Task,
                      longer_than_1s (RunningTimeInNanos kt.2)) visited))
    ≤ int_max →
  gt_1s_inner visited count
  = count + Z.of_nat (length (filter (λ kt : string * Task,
                        longer_than_1s (RunningTimeInNanos kt.2)) visited)).
Proof.
  revert count. induction visited as [|[k task] visited IH]; intros count H0 Hmax.
  - simpl. lia.
  - unfold gt_1s_inner in *. cbn [fold_left snd].
    rewrite filter_cons in *. cbn [snd] in *.
    destruct (gt_1s task) eqn:Hgt.
    + apply gt_1s_spec in Hgt. rewrite decide_True in * by done.
      cbn [length] in *.
      rewrite int_add_exact by (unfold int_min; lia).
      rewrite IH; lia.
    + rewrite decide_False in *
        by (rewrite <- gt_1s_spec; congruence).
      apply IH; lia.
Qed.

Lemma slow_tasks_size visited node :
  ranges_over visited (Tasks node) →
  length (filter (λ kt : string * Task,
            longer_than_1s (RunningTimeInNanos kt.2)) visited)
  = size (slow_tasks node).
Proof.
  unfold ranges_over, slow_tasks. intros ->.
  rewrite map_filter_alt, map_size_list_to_map; [done|].
  apply (sublist_NoDup _ ((map_to_list (Tasks node)).*1)).
  - apply NoDup_fst_map_to_list.
  - apply fmap_sublist, sublist_filter.
Qed.

Lemma gt_1s_loop_in_exact order visited count :
  (∀ node, ranges_over (order node) (Tasks node)) →
  0 ≤ count →
  count + Z.of_nat (sum_list_with (λ kn, size (slow_tasks kn.2)) visited)
    ≤ int_max →
  gt_1s_loop_in order visited count
  = count + Z.of_nat (sum_list_with (λ kn, size (slow_tasks kn.2)) visited).
Proof.
  intros Horder. revert count.
  induction visited as [|[k node] visited IH]; intros count H0 Hmax.
  - simpl. lia.
  - unfold gt_1s_loop_in in *. cbn [fold_left snd sum_list_with] in *.
    pose proof (slow_tasks_size _ _ (Horder node)) as Hsize.
    rewrite gt_1s_inner_exact by lia.
    rewrite IH; lia.
Qed.

Lemma slow_tasks_le node : (size (slow_tasks node) ≤ size (Tasks node))%nat.
Proof. apply map_subseteq_size, map_filter_subseteq. Qed.

Lemma slow_task_count_le tasks : (slow_task_count tasks ≤ task_count tasks)%nat.
Proof.
  unfold slow_task_count, task_count, sum_over_nodes.
  induction (map_to_list (Nodes tasks)) as [|[k node] l IH]; simpl; [lia|].
  pose proof (slow_tasks_le node). lia.
Qed.

Lemma total_loop_value tasks visited :
  ranges_over visited (Nodes tasks) →
  Z.of_nat (task_count tasks) ≤ int_max →
  total_loop visited 0 = Z.of_nat (task_count tasks).
Proof.
  unfold ranges_over, task_count, sum_over_nodes. intros Hperm Hmax.
  rewrite <- Hperm in *. rewrite total_loop_exact; lia.
Qed.

Lemma gt_1s_loop_value tasks order visited :
  ranges_over visited (Nodes tasks) →
  (∀ node, ranges_over (order node) (Tasks node)) →
  Z.of_nat (slow_task_count tasks) ≤ int_max →
  gt_1s_loop_in order visited 0 = Z.of_nat (slow_task_count tasks).
Proof.
  unfold ranges_over at 1. unfold slow_task_count, sum_over_nodes.
  intros Hperm Horder Hmax.
  rewrite <- Hperm in *. rewrite gt_1s_loop_in_exact; [lia|done|lia|lia].
Qed.

Lemma ranges_over_map_to_list {A} (m : gmap string A) :
  ranges_over (map_to_list m) m.
Proof. unfold ranges_over. reflexivity. Qed.

(** C1: a task is counted by [total_gt_1s] if and only if its running
    time in nanoseconds, divided by 1,000,000 with integer division,
    exceeds 1000.  Whatever the order in which the maps are ranged over,
    the value is the number of such tasks (as long as that number is
    below [2^53], where [float64] is exact); a task of a decoded response
    is among the counted ones exactly when the quotient exceeds 1000,
    with truncated and with floored division alike; and a task at exactly
    1000 ms ([r = 1,000,000,000]) is not counted. *)
Theorem total_gt_1s_counts_longer_than_1s
    (tasks : TasksResponse) (order : Node → list (string * Task))
    (visited : list (string * Node)) :
  ranges_over visited (Nodes tasks) →
  (∀ node, ranges_over (order node) (Tasks node)) →
  Z.of_nat (slow_task_count tasks) < 2 ^ 53 →
  float64_of_int (gt_1s_loop_in order visited 0)
    = Z.of_nat (slow_task_count tasks)
  ∧ total_gt_1s_Value tasks = Z.of_nat (slow_task_count tasks)
  ∧ (∀ k node id task,
       Nodes tasks !! k = Some node → Tasks node !! id = Some task →
       slow_tasks node !! id = Some task
       ↔ RunningTimeInNanos task ÷ 1000000 > 1000)
  ∧ (∀ task, gt_1s task = true ↔ RunningTimeInNanos task ÷ 1000000 > 1000)
  ∧ (∀ r, r ÷ 1000000 > 1000 ↔ r `div` 1000000 > 1000)
  ∧ (∀ task, RunningTimeInNanos task = 1000000000 → gt_1s task = false)
  ∧ total_gt_1s_Value (one_task 1000000000) = 0.
Proof.
  intros Hvisited Horder Hfit.
  assert (Z.of_nat (slow_task_count tasks) ≤ int_max)
    by (unfold int_max; lia).
  split; [|split; [|split; [|split; [|split; [|split]]]]].
  - rewrite (gt_1s_loop_value tasks) by done.
    apply float64_of_int_exact. lia.
  - unfold total_gt_1s_Value, gt_1s_loop. cbv zeta.
    rewrite (gt_1s_loop_value tasks);
      [apply float64_of_int_exact; lia|apply ranges_over_map_to_list| |done].
    intros node. apply ranges_over_map_to_list.
  - intros k node id task _ Htask. unfold slow_tasks.
    rewrite map_lookup_filter_Some. unfold longer_than_1s. cbn [snd].
    tauto.
  - intros task. apply gt_1s_spec.
  - intros r. rewrite (longer_than_1s_threshold r : _ ÷ _ > _ ↔ _).
    split; intros Hr.
    + assert (1001 ≤ r `div` 1000000)
        by (apply Z.div_le_lower_bound; lia). lia.
    + destruct (Z.le_gt_cases 1001000000 r) as [|Hlt]; [done|].
      assert (r `div` 1000000 < 1001)
        by (apply Z.div_lt_upper_bound; lia). lia.
  - intros task Hr. unfold gt_1s, int_div. rewrite Hr. reflexivity.
  - vm_compute. reflexivity.
Qed.

(** C2: [total] is the sum of the sizes of the per-node task maps,
    whatever the order in which the nodes are ranged over (as long as the
    sum is below [2^53], where [float64] is exact), and it is 0 for a
    response without nodes. *)
Theorem total_is_sum_of_node_sizes
    (tasks : TasksResponse) (visited : list (string * Node)) :
  ranges_over visited (Nodes tasks) →
  Z.of_nat (task_count tasks) < 2 ^ 53 →
  float64_of_int (total_loop visited 0) = Z.of_nat (task_count tasks)
  ∧ total_Value tasks = Z.of_nat (task_count tasks)
  ∧ total_Value {| Nodes := ∅ |} = 0.
Proof.
  intros Hvisited Hfit.
  assert (Z.of_nat (task_count tasks) ≤ int_max) by (unfold int_max; lia).
  split; [|split].
  - rewrite (total_loop_value tasks) by done.
    apply float64_of_int_exact. lia.
  - unfold total_Value. cbv zeta.
    rewrite (total_loop_value tasks) by (done || apply ranges_over_map_to_list).
    apply float64_of_int_exact. lia.
  - unfold total_Value. cbn [Nodes]. rewrite map_to_list_empty. reflexivity.
Qed.

(** C10: the value of [total_gt_1s] is at most the value of [total],
    whatever the orders in which the maps are ranged over, as long as the
    number of tasks fits an [int]. *)
Theorem total_gt_1s_le_total
    (tasks : TasksResponse) (order : Node → list (string * Task))
    (visited visited' : list (string * Node)) :
  ranges_over visited (Nodes tasks) →
  ranges_over visited' (Nodes tasks) →
  (∀ node, ranges_over (order node) (Tasks node)) →
  Z.of_nat (task_count tasks) ≤ int_max →
  float64_of_int (gt_1s_loop_in order visited 0)
    ≤ float64_of_int (total_loop visited' 0)
  ∧ total_gt_1s_Value tasks ≤ total_Value tasks.
Proof.
  intros Hvisited Hvisited' Horder Hfit.
  pose proof (slow_task_count_le tasks) as Hle.
  unfold total_gt_1s_Value, total_Value, gt_1s_loop. cbv zeta.
  rewrite !(gt_1s_loop_value tasks), !(total_loop_value tasks)
    by (done || apply ranges_over_map_to_list || lia
        || (intros; apply ranges_over_map_to_list)).
  split; apply float64_of_int_mono; lia.
Qed.

(** ** Running the monad *)

Lemma for_range_run {S A} (l : list A) (body : A → M S unit)
    (ev : A → list Event) (s : S) :
  (∀ x s, body x s = (tt, s, ev x)) →
  for_range l body s = (tt, s, concat (ev <$> l)).
Proof.
  intros Hbody. induction l as [|x l IH]; [done|].
  cbn [for_range]. unfold mbind, M_bind. rewrite Hbody, IH. reflexivity.
Qed.

(** What [getAndParseURL] and [Collect] of each collector come to, by
    cases on the reply of the network: the value returned, the collector
    left behind, and the events in order. *)

Section Runs.

Context (path_Join : string → string → string).
Context (URL_String : url.URL → string).
Context (DecodeT : Decoder TasksResponse).
Context (DecodeQ : Decoder NetworkDiscoveryErrorQueryResponse).

Lemma Tasks_getAndParseURL_run (rt : RoundTrip) (u : url.URL)
    (data : TasksResponse) (s : Tasks.t) :
  let req := http.NewRequest "GET" (URL_String u) None in
  let reply := rt (Tasks.client s) req in
  run (Tasks.getAndParseURL URL_String DecodeT rt u data) s
  = (fetch_result u DecodeT data reply,
     Tasks.mk (Tasks.logger s) (Tasks.client s) (Tasks.url s) (Tasks.up s)
       (Tasks.totalScrapes s)
       (if decode_failed (outcome DecodeT data reply)
        then prometheus.Inc (Tasks.jsonParseFailures s)
        else Tasks.jsonParseFailures s)
       (Tasks.taskMetrics s),
     fetch_events (Tasks.logger s) (Tasks.client s) req DecodeT data reply).
Proof.
  unfold Tasks.getAndParseURL, Tasks.jsonParseFailures_Inc. step_M.
  unfold_pull. destruct s. reply_cases rt DecodeT; reflexivity.
Qed.

Lemma Tasks_Collect_run (rt : RoundTrip) (s : Tasks.t) :
  let reply := tasks_reply path_Join URL_String rt s in
  run (Tasks.Collect path_Join URL_String DecodeT rt) s
  = (tt,
     Tasks.mk (Tasks.logger s) (Tasks.client s) (Tasks.url s)
       (prometheus.Set_ (Tasks.up s)
          (up_after (tasks_target path_Join (Tasks.url s)) DecodeT
             {| Nodes := ∅ |} reply))
       (prometheus.Inc (Tasks.totalScrapes s))
       (if decode_failed (tasks_outcome path_Join URL_String DecodeT rt s)
        then prometheus.Inc (Tasks.jsonParseFailures s)
        else Tasks.jsonParseFailures s)
       (Tasks.taskMetrics s),
     pull_events (Tasks.logger s) (Tasks.client s)
       (tasks_request path_Join URL_String (Tasks.url s))
       (tasks_target path_Join (Tasks.url s)) DecodeT {| Nodes := ∅ |}
       (tasks_metrics s) reply).
Proof.
  unfold Tasks.Collect, Tasks.fetchAndDecodeTasks, Tasks.getAndParseURL,
    Tasks.totalScrapes_Inc, Tasks.up_Set, Tasks.jsonParseFailures_Inc.
  step_M. unfold tasks_outcome. unfold_pull. destruct s.
  reply_cases rt DecodeT; try reflexivity.
  all: erewrite for_range_run by reflexivity.
  all: unfold metric_events, tasks_metrics; cbn.
  all: rewrite <- list_fmap_compose; reflexivity.
Qed.

Lemma LogsQueries_getAndParseURL_run (rt : RoundTrip) (u : url.URL)
    (data : NetworkDiscoveryErrorQueryResponse) (s : LogsQueries.t) :
  let req :=
    http.Header_Set
      (http.NewRequest "POST" (URL_String u) (Some LogsQueries.jsonStr))
      "Content-Type" "application/json" in
  let reply := rt http.zero_Client req in
  run (LogsQueries.getAndParseURL URL_String DecodeQ rt u data) s
  = (fetch_result u DecodeQ data reply,
     LogsQueries.mk (LogsQueries.logger s) (LogsQueries.client s)
       (LogsQueries.url s) (LogsQueries.up s) (LogsQueries.totalScrapes s)
       (if decode_failed (outcome DecodeQ data reply)
        then prometheus.Inc (LogsQueries.jsonParseFailures s)
        else LogsQueries.jsonParseFailures s)
       (LogsQueries.networkDiscoveryErrorQueryMetrics s),
     fetch_events (LogsQueries.logger s) http.zero_Client req DecodeQ data
       reply).
Proof.
  unfold LogsQueries.getAndParseURL, LogsQueries.getNetworkDiscoveryReq,
    LogsQueries.jsonParseFailures_Inc.
  step_M. unfold_pull. destruct s. reply_cases rt DecodeQ; reflexivity.
Qed.

Lemma LogsQueries_Collect_run (rt : RoundTrip) (s : LogsQueries.t) :
  let reply := queries_reply path_Join URL_String rt s in
  run (LogsQueries.Collect path_Join URL_String DecodeQ rt) s
  = (tt,
     LogsQueries.mk (LogsQueries.logger s) (LogsQueries.client s)
       (LogsQueries.url s)
       (prometheus.Set_ (LogsQueries.up s)
          (up_after (queries_target path_Join (LogsQueries.url s)) DecodeQ
             {| Hits := {| Total := 0 |} |} reply))
       (prometheus.Inc (LogsQueries.totalScrapes s))
       (if decode_failed (queries_outcome path_Join URL_String DecodeQ rt s)
        then prometheus.Inc (LogsQueries.jsonParseFailures s)
        else LogsQueries.jsonParseFailures s)
       (LogsQueries.networkDiscoveryErrorQueryMetrics s),
     pull_events (LogsQueries.logger s) http.zero_Client
       (queries_request path_Join URL_String (LogsQueries.url s))
       (queries_target path_Join (LogsQueries.url s)) DecodeQ
       {| Hits := {| Total := 0 |} |} (queries_metrics s) reply).
Proof.
  unfold LogsQueries.Collect, LogsQueries.fetchAndDecodeTasks,
    LogsQueries.getAndParseURL, LogsQueries.getNetworkDiscoveryReq,
    LogsQueries.totalScrapes_Inc, LogsQueries.up_Set,
    LogsQueries.jsonParseFailures_Inc.
  step_M. unfold queries_outcome. unfold_pull. destruct s.
  reply_cases rt DecodeQ; try reflexivity.
  all: erewrite for_range_run by reflexivity.
  all: unfold metric_events, queries_metrics; cbn.
  all: rewrite <- list_fmap_compose; reflexivity.
Qed.
End Runs.

(** ** Reading a trace *)

Lemma sent_app t t' : sent (t ++ t') = sent t ++ sent t'.
Proof. apply omap_app. Qed.

Lemma valued_app t t' : valued (t ++ t') = valued t ++ valued t'.
Proof. apply omap_app. Qed.

Lemma count_Inc_app o t t' :
  count_Inc o (t ++ t') = (count_Inc o t + count_Inc o t')%nat.
Proof. unfold count_Inc. by rewrite List.filter_app, length_app. Qed.

Lemma closes_app t t' : closes (t ++ t') = closes t ++ closes t'.
Proof. apply List.filter_app. Qed.

Lemma round_trips_app t t' :
  round_trips (t ++ t') = round_trips t ++ round_trips t'.
Proof. apply List.filter_app. Qed.

Lemma logged_app t t' : logged (t ++ t') = logged t ++ logged t'.
Proof. apply List.filter_app. Qed.

Lemma sent_bookkeeping : sent (EvSend <$> bookkeeping) = bookkeeping.
Proof. reflexivity. Qed.

#[global] Hint Rewrite sent_app valued_app count_Inc_app closes_app
  round_trips_app logged_app : trace.

Section PullFacts.

Context {R : Type}.
Context (logger : log.Logger) (client : http.Client) (req : http.Request).
Context (target : url.URL) (decode : Decoder R) (zero : R).
Context (metrics : list (prometheus.Desc * prometheus.ValueType * (R → Z))).

Lemma sent_metric_events data :
  sent (metric_events metrics data) = const_metrics metrics data.
Proof.
  unfold metric_events, const_metrics.
  induction metrics as [|m ms IH]; [done|].
  rewrite !fmap_cons, concat_cons, sent_app, IH. reflexivity.
Qed.

Lemma valued_metric_events data :
  valued (metric_events metrics data) = (λ m, m.1.1) <$> metrics.
Proof.
  unfold metric_events.
  induction metrics as [|m ms IH]; [done|].
  rewrite !fmap_cons, concat_cons, valued_app, IH. reflexivity.
Qed.

Lemma metric_events_quiet data o :
  count_Inc o (metric_events metrics data) = 0%nat
  ∧ closes (metric_events metrics data) = []
  ∧ round_trips (metric_events metrics data) = []
  ∧ logged (metric_events metrics data) = [].
Proof.
  unfold metric_events.
  induction metrics as [|m ms IH]; [done|].
  rewrite !fmap_cons, concat_cons. read_trace.
  destruct IH as (-> & -> & -> & ->). by destruct o.
Qed.

Lemma const_metrics_const data :
  Forall is_ConstMetric (const_metrics metrics data).
Proof. unfold const_metrics. apply Forall_fmap, Forall_true. by intros. Qed.

Lemma fetch_result_outcome reply :
  match outcome decode zero reply with
  | Decoded data => fetch_result target decode zero reply = (data, None)
  | _ => ∃ data err, fetch_result target decode zero reply = (data, Some err)
  end.
Proof.
  unfold outcome, fetch_result. destruct reply as [err|res]; [by eauto|].
  case_decide; [|by eauto].
  destruct (decode _ _) as [d [e|]]; by eauto.
Qed.

Lemma fetch_events_reading data reply :
  sent (fetch_events logger client req decode data reply) = []
  ∧ valued (fetch_events logger client req decode data reply) = []
  ∧ round_trips (fetch_events logger client req decode data reply)
    = [EvDo client req]
  ∧ count_Inc prometheus.own_totalScrapes
      (fetch_events logger client req decode data reply) = 0%nat
  ∧ count_Inc prometheus.own_jsonParseFailures
      (fetch_events logger client req decode data reply)
    = parse_failures decode data reply
  ∧ closes (fetch_events logger client req decode data reply)
    = match reply with inl _ => [] | inr res => [EvClose (http.Body res)] end.
Proof.
  unfold fetch_events, close_events, parse_failures, outcome.
  destruct reply as [err|[code [content cerr]]]; [done|]. cbn.
  destruct cerr; case_decide; try done;
    by destruct (decode _ _) as [d [e|]].
Qed.

Lemma pull_events_reading reply :
  let t := pull_events logger client req target decode zero metrics reply in
  sent t = match outcome decode zero reply with
           | Decoded data => const_metrics metrics data
           | _ => []
           end ++ bookkeeping
  ∧ valued t = match outcome decode zero reply with
               | Decoded data => (λ m, m.1.1) <$> metrics
               | _ => []
               end
  ∧ round_trips t = [EvDo client req]
  ∧ count_Inc prometheus.own_totalScrapes t = 1%nat
  ∧ count_Inc prometheus.own_jsonParseFailures t
    = parse_failures decode zero reply.
Proof.
  cbv zeta. unfold pull_events. read_trace.
  destruct (fetch_events_reading zero reply) as (-> & -> & -> & -> & -> & _).
  pose proof (fetch_result_outcome reply) as Hres.
  destruct (outcome decode zero reply); try destruct Hres as (d & e & ->);
    try rewrite Hres; read_trace;
    rewrite ?sent_metric_events, ?valued_metric_events;
    try destruct (metric_events_quiet data prometheus.own_totalScrapes)
      as (-> & _ & -> & _);
    try destruct (metric_events_quiet data prometheus.own_jsonParseFailures)
      as (-> & _ & _ & _);
    cbn; rewrite ?app_nil_r; repeat split; try done; lia.
Qed.

Lemma pull_events_head reply :
  ∃ rest,
    pull_events logger client req target decode zero metrics reply
    = EvInc prometheus.own_totalScrapes :: EvDo client req :: rest
    ∧ round_trips rest = []
    ∧ count_Inc prometheus.own_totalScrapes rest = 0%nat.
Proof.
  destruct (pull_events_reading reply) as (_ & _ & Hdo & Hinc & _).
  cbv zeta in *. unfold pull_events, fetch_events in *.
  cbn [app] in *. eexists. split; [reflexivity|].
  unfold round_trips, count_Inc in *. cbn [List.filter is_Do is_Inc length] in *.
  split; congruence.
Qed.
End PullFacts.

Lemma up_after_outcome {R} target (decode : Decoder R) zero reply :
  up_after target decode zero reply
  = match outcome decode zero reply with Decoded _ => 1 | _ => 0 end.
Proof.
  unfold up_after.
  pose proof (fetch_result_outcome target decode zero reply) as Hres.
  destruct (outcome decode zero reply); try destruct Hres as (d & e & ->);
    by try rewrite Hres.
Qed.

Lemma decode_failed_iff {R} (decode : Decoder R) zero reply :
  decode_failed (outcome decode zero reply) = true
  ↔ ∃ res err,
      reply = inr res ∧ http.StatusCode res = 200
      ∧ (decode (http.content (http.Body res)) zero).2 = Some err.
Proof.
  unfold outcome. destruct reply as [err|res].
  - split; [done|]. by intros (? & ? & ? & _).
  - case_decide.
    + destruct (decode _ _) as [d [e|]] eqn:Hd; cbn; split; try done.
      * intros _. exists res, e. by rewrite Hd.
      * intros (res' & e & [= <-] & _ & He). rewrite Hd in He. done.
    + split; [done|]. intros (res' & e & [= <-] & ? & _). done.
Qed.

(** ** The collector protocol *)

Section Protocol.

Context (path_Join : string → string → string).
Context (URL_String : url.URL → string).
Context (DecodeT : Decoder TasksResponse).
Context (DecodeQ : Decoder NetworkDiscoveryErrorQueryResponse).

Local Abbreviation collectT rt s :=
  (run (Tasks.Collect path_Join URL_String DecodeT rt) s).
Local Abbreviation collectQ rt s :=
  (run (LogsQueries.Collect path_Join URL_String DecodeQ rt) s).
Local Abbreviation outcomeT rt s :=
  (tasks_outcome path_Join URL_String DecodeT rt s).
Local Abbreviation outcomeQ rt s :=
  (queries_outcome path_Join URL_String DecodeQ rt s).

(** One pull, read off its trace: what was sent, which extraction
    functions ran, how often the counters were incremented, how the
    trace starts, and the collector left behind. *)
Lemma Tasks_pull (rt : RoundTrip) (s : Tasks.t) :
  let r := collectT rt s in
  let o := outcomeT rt s in
  sent (events_of r)
    = match o with
      | Decoded data => const_metrics (tasks_metrics s) data
      | _ => []
      end ++ bookkeeping
  ∧ valued (events_of r)
    = match o with Decoded _ => Tasks.Desc <$> Tasks.taskMetrics s | _ => [] end
  ∧ count_Inc prometheus.own_totalScrapes (events_of r) = 1%nat
  ∧ count_Inc prometheus.own_jsonParseFailures (events_of r)
    = (if decode_failed o then 1 else 0)%nat
  ∧ (∃ rest,
       events_of r
       = EvInc prometheus.own_totalScrapes
         :: EvDo (Tasks.client s)
              (tasks_request path_Join URL_String (Tasks.url s))
         :: rest
       ∧ round_trips rest = []
       ∧ count_Inc prometheus.own_totalScrapes rest = 0%nat)
  ∧ state_of r
    = Tasks.mk (Tasks.logger s) (Tasks.client s) (Tasks.url s)
        (prometheus.Set_ (Tasks.up s)
           match o with Decoded _ => 1 | _ => 0 end)
        (prometheus.Inc (Tasks.totalScrapes s))
        (if decode_failed o then prometheus.Inc (Tasks.jsonParseFailures s)
         else Tasks.jsonParseFailures s)
        (Tasks.taskMetrics s).
Proof.
  cbv zeta. rewrite Tasks_Collect_run. cbv zeta.
  unfold state_of, events_of. cbn [fst snd].
  rewrite up_after_outcome. unfold tasks_outcome.
  set (reply := tasks_reply path_Join URL_String rt s).
  destruct (pull_events_reading (Tasks.logger s) (Tasks.client s)
    (tasks_request path_Join URL_String (Tasks.url s))
    (tasks_target path_Join (Tasks.url s)) DecodeT {| Nodes := ∅ |}
    (tasks_metrics s) reply) as (-> & -> & _ & -> & ->).
  repeat split; try done.
  - unfold tasks_metrics. rewrite <- list_fmap_compose.
    by destruct (outcome _ _ _).
  - apply pull_events_head.
Qed.

Lemma LogsQueries_pull (rt : RoundTrip) (s : LogsQueries.t) :
  let r := collectQ rt s in
  let o := outcomeQ rt s in
  sent (events_of r)
    = match o with
      | Decoded data => const_metrics (queries_metrics s) data
      | _ => []
      end ++ bookkeeping
  ∧ valued (events_of r)
    = match o with
      | Decoded _ =>
          LogsQueries.Desc <$> LogsQueries.networkDiscoveryErrorQueryMetrics s
      | _ => []
      end
  ∧ count_Inc prometheus.own_totalScrapes (events_of r) = 1%nat
  ∧ count_Inc prometheus.own_jsonParseFailures (events_of r)
    = (if decode_failed o then 1 else 0)%nat
  ∧ (∃ rest,
       events_of r
       = EvInc prometheus.own_totalScrapes
         :: EvDo http.zero_Client
              (queries_request path_Join URL_String (LogsQueries.url s))
         :: rest
       ∧ round_trips rest = []
       ∧ count_Inc prometheus.own_totalScrapes rest = 0%nat)
  ∧ state_of r
    = LogsQueries.mk (LogsQueries.logger s) (LogsQueries.client s)
        (LogsQueries.url s)
        (prometheus.Set_ (LogsQueries.up s)
           match o with Decoded _ => 1 | _ => 0 end)
        (prometheus.Inc (LogsQueries.totalScrapes s))
        (if decode_failed o
         then prometheus.Inc (LogsQueries.jsonParseFailures s)
         else LogsQueries.jsonParseFailures s)
        (LogsQueries.networkDiscoveryErrorQueryMetrics s).
Proof.
  cbv zeta. rewrite LogsQueries_Collect_run. cbv zeta.
  unfold state_of, events_of. cbn [fst snd].
  rewrite up_after_outcome. unfold queries_outcome.
  set (reply := queries_reply path_Join URL_String rt s).
  destruct (pull_events_reading (LogsQueries.logger s) http.zero_Client
    (queries_request path_Join URL_String (LogsQueries.url s))
    (queries_target path_Join (LogsQueries.url s)) DecodeQ
    {| Hits := {| Total := 0 |} |}
    (queries_metrics s) reply) as (-> & -> & _ & -> & ->).
  repeat split; try done.
  - unfold queries_metrics. rewrite <- list_fmap_compose.
    by destruct (outcome _ _ _).
  - apply pull_events_head.
Qed.

(** C3: when the fetch or the decoding fails (no response, a status
    other than 200, a body that does not decode), [Collect] of either
    collector leaves [up] at 0, sends the three bookkeeping metrics and
    nothing else, and calls no extraction function. *)
Theorem failed_pull_sends_bookkeeping_only
    (rt : RoundTrip) (st : Tasks.t) (sq : LogsQueries.t) :
  (failed (outcomeT rt st) →
   prometheus.gauge_value (Tasks.up (state_of (collectT rt st))) = 0
   ∧ sent (events_of (collectT rt st)) = bookkeeping
   ∧ valued (events_of (collectT rt st)) = [])
  ∧ (failed (outcomeQ rt sq) →
     prometheus.gauge_value (LogsQueries.up (state_of (collectQ rt sq))) = 0
     ∧ sent (events_of (collectQ rt sq)) = bookkeeping
     ∧ valued (events_of (collectQ rt sq)) = []).
Proof.
  split; intros Hfailed.
  - destruct (Tasks_pull rt st) as (-> & -> & _ & _ & _ & ->).
    by destruct (outcomeT rt st).
  - destruct (LogsQueries_pull rt sq) as (-> & -> & _ & _ & _ & ->).
    by destruct (outcomeQ rt sq).
Qed.

(** C4: [Collect] of either collector increments [totalScrapes] exactly
    once, before the one round trip it attempts, whatever that round
    trip and the decoding come to. *)
Theorem totalScrapes_incremented_once_before_fetch
    (rt : RoundTrip) (st : Tasks.t) (sq : LogsQueries.t) :
  (prometheus.counter_value (Tasks.totalScrapes (state_of (collectT rt st)))
   = prometheus.counter_value (Tasks.totalScrapes st) + 1
   ∧ count_Inc prometheus.own_totalScrapes (events_of (collectT rt st)) = 1%nat
   ∧ ∃ rest,
       events_of (collectT rt st)
       = EvInc prometheus.own_totalScrapes
         :: EvDo (Tasks.client st)
              (tasks_request path_Join URL_String (Tasks.url st))
         :: rest
       ∧ round_trips rest = []
       ∧ count_Inc prometheus.own_totalScrapes rest = 0%nat)
  ∧ (prometheus.counter_value
       (LogsQueries.totalScrapes (state_of (collectQ rt sq)))
     = prometheus.counter_value (LogsQueries.totalScrapes sq) + 1
     ∧ count_Inc prometheus.own_totalScrapes (events_of (collectQ rt sq))
       = 1%nat
     ∧ ∃ rest,
         events_of (collectQ rt sq)
         = EvInc prometheus.own_totalScrapes
           :: EvDo http.zero_Client
                (queries_request path_Join URL_String (LogsQueries.url sq))
           :: rest
         ∧ round_trips rest = []
         ∧ count_Inc prometheus.own_totalScrapes rest = 0%nat).
Proof.
  split.
  - destruct (Tasks_pull rt st) as (_ & _ & Hinc & _ & Hhead & ->).
    by repeat split.
  - destruct (LogsQueries_pull rt sq) as (_ & _ & Hinc & _ & Hhead & ->).
    by repeat split.
Qed.

(** C5: [Collect] of either collector increments [jsonParseFailures]
    once when a response with status 200 was obtained and its body did
    not decode, and not at all otherwise: not when no response was
    obtained, not on another status, not on success. *)
Theorem jsonParseFailures_counts_decode_failures
    (rt : RoundTrip) (st : Tasks.t) (sq : LogsQueries.t) :
  (prometheus.counter_value
     (Tasks.jsonParseFailures (state_of (collectT rt st)))
   = prometheus.counter_value (Tasks.jsonParseFailures st)
     + (if decode_failed (outcomeT rt st) then 1 else 0)
   ∧ count_Inc prometheus.own_jsonParseFailures (events_of (collectT rt st))
     = (if decode_failed (outcomeT rt st) then 1 else 0)%nat
   ∧ (decode_failed (outcomeT rt st) = true
      ↔ ∃ res err,
          tasks_reply path_Join URL_String rt st = inr res
          ∧ http.StatusCode res = 200
          ∧ (DecodeT (http.content (http.Body res)) {| Nodes := ∅ |}).2
            = Some err))
  ∧ (prometheus.counter_value
       (LogsQueries.jsonParseFailures (state_of (collectQ rt sq)))
     = prometheus.counter_value (LogsQueries.jsonParseFailures sq)
       + (if decode_failed (outcomeQ rt sq) then 1 else 0)
     ∧ count_Inc prometheus.own_jsonParseFailures
         (events_of (collectQ rt sq))
       = (if decode_failed (outcomeQ rt sq) then 1 else 0)%nat
     ∧ (decode_failed (outcomeQ rt sq) = true
        ↔ ∃ res err,
            queries_reply path_Join URL_String rt sq = inr res
            ∧ http.StatusCode res = 200
            ∧ (DecodeQ (http.content (http.Body res))
                 {| Hits := {| Total := 0 |} |}).2
              = Some err)).
Proof.
  split.
  - destruct (Tasks_pull rt st) as (_ & _ & _ & Hinc & _ & ->).
    split; [|split; [done|apply decode_failed_iff]].
    cbn. destruct (decode_failed _); cbn; lia.
  - destruct (LogsQueries_pull rt sq) as (_ & _ & _ & Hinc & _ & ->).
    split; [|split; [done|apply decode_failed_iff]].
    cbn. destruct (decode_failed _); cbn; lia.
Qed.

(** C6: when the fetch and the decoding succeed, [Collect] of either
    collector sets [up] to 1 and sends one constant metric per entry of
    its metric table, in order (two entries for the tasks collector, one
    for the error-query collector); and on every call the metrics sent
    are constant metrics followed by the three bookkeeping metrics, once
    each. *)
Theorem successful_pull_sends_each_metric_once
    (rt : RoundTrip) (st : Tasks.t) (sq : LogsQueries.t) :
  ((∀ data, outcomeT rt st = Decoded data →
      prometheus.gauge_value (Tasks.up (state_of (collectT rt st))) = 1
      ∧ sent (events_of (collectT rt st))
        = ((λ metric,
              prometheus.ConstMetric (Tasks.Desc metric) (Tasks.Type_ metric)
                (Tasks.Value metric data))
           <$> Tasks.taskMetrics st)
          ++ bookkeeping)
   ∧ (∃ extraction,
        sent (events_of (collectT rt st)) = extraction ++ bookkeeping
        ∧ Forall is_ConstMetric extraction))
  ∧ ((∀ data, outcomeQ rt sq = Decoded data →
        prometheus.gauge_value (LogsQueries.up (state_of (collectQ rt sq))) = 1
        ∧ sent (events_of (collectQ rt sq))
          = ((λ metric,
                prometheus.ConstMetric (LogsQueries.Desc metric)
                  (LogsQueries.Type_ metric)
                  (LogsQueries.Value metric data))
             <$> LogsQueries.networkDiscoveryErrorQueryMetrics sq)
            ++ bookkeeping)
     ∧ (∃ extraction,
          sent (events_of (collectQ rt sq)) = extraction ++ bookkeeping
          ∧ Forall is_ConstMetric extraction))
  ∧ (∀ namespace logger client base,
       length (Tasks.taskMetrics (Tasks.NewTasks namespace logger client base))
       = 2%nat
       ∧ length (LogsQueries.networkDiscoveryErrorQueryMetrics
                   (LogsQueries.NewLogsQueries namespace logger client base))
         = 1%nat).
Proof.
  split; [|split; [|done]].
  - destruct (Tasks_pull rt st) as (-> & _ & _ & _ & _ & ->). split.
    + intros data ->. split; [done|].
      unfold const_metrics, tasks_metrics. by rewrite <- list_fmap_compose.
    + eexists. split; [reflexivity|].
      destruct (outcomeT rt st); try apply Forall_nil_2.
      apply const_metrics_const.
  - destruct (LogsQueries_pull rt sq) as (-> & _ & _ & _ & _ & ->). split.
    + intros data ->. split; [done|].
      unfold const_metrics, queries_metrics. by rewrite <- list_fmap_compose.
    + eexists. split; [reflexivity|].
      destruct (outcomeQ rt sq); try apply Forall_nil_2.
      apply const_metrics_const.
Qed.

(** C7, at the code: the tasks collector sends its [GET] through the
    client it was constructed with; the error-query collector sends its
    [POST] through a zero-valued client, whatever client it was
    constructed with: [sample_client], for one, is not that client. *)
Theorem error_query_round_trip_ignores_injected_client
    (namespace : string) (logger : log.Logger) (client : http.Client)
    (base : url.URL) (rt : RoundTrip) :
  round_trips (events_of (collectT rt
                            (Tasks.NewTasks namespace logger client base)))
  = [EvDo client (tasks_request path_Join URL_String base)]
  ∧ round_trips (events_of (collectQ rt
                   (LogsQueries.NewLogsQueries namespace logger client base)))
    = [EvDo http.zero_Client (queries_request path_Join URL_String base)]
  ∧ http.zero_Client ≠ sample_client.
Proof.
  split; [|split; [|discriminate]].
  - destruct (Tasks_pull rt (Tasks.NewTasks namespace logger client base))
      as (_ & _ & _ & _ & (rest & -> & Hrest & _) & _).
    unfold round_trips in *. cbn [List.filter is_Do]. by rewrite Hrest.
  - destruct (LogsQueries_pull rt
                (LogsQueries.NewLogsQueries namespace logger client base))
      as (_ & _ & _ & _ & (rest & -> & Hrest & _) & _).
    unfold round_trips in *. cbn [List.filter is_Do]. by rewrite Hrest.
Qed.

Lemma Tasks_pull_keeps_descriptors (rt : RoundTrip) (s : Tasks.t) :
  Tasks.Describe (state_of (collectT rt s)) = Tasks.Describe s
  ∧ tasks_Metric_Desc (state_of (collectT rt s)) = tasks_Metric_Desc s
  ∧ ∀ m, m ∈ sent (events_of (collectT rt s)) →
         tasks_Metric_Desc s m ∈ Tasks.Describe s.
Proof.
  destruct (Tasks_pull rt s) as (-> & _ & _ & _ & _ & ->).
  split; [|split].
  - unfold Tasks.Describe. cbn. by destruct (decode_failed _).
  - unfold tasks_Metric_Desc. cbn. by destruct (decode_failed _).
  - intros m [Hm|Hm]%elem_of_app; unfold Tasks.Describe; apply elem_of_app.
    + left. destruct (outcomeT rt s); try by apply elem_of_nil in Hm.
      unfold const_metrics, tasks_metrics in Hm.
      rewrite <- list_fmap_compose in Hm.
      apply list_elem_of_fmap in Hm as (metric & -> & Hmetric).
      apply list_elem_of_fmap. by exists metric.
    + right. unfold bookkeeping in Hm.
      repeat (apply elem_of_cons in Hm as [->|Hm]; [cbn; set_solver|]).
      by apply elem_of_nil in Hm.
Qed.

Lemma LogsQueries_pull_keeps_descriptors (rt : RoundTrip) (s : LogsQueries.t) :
  LogsQueries.Describe (state_of (collectQ rt s)) = LogsQueries.Describe s
  ∧ queries_Metric_Desc (state_of (collectQ rt s)) = queries_Metric_Desc s
  ∧ ∀ m, m ∈ sent (events_of (collectQ rt s)) →
         queries_Metric_Desc s m ∈ LogsQueries.Describe s.
Proof.
  destruct (LogsQueries_pull rt s) as (-> & _ & _ & _ & _ & ->).
  split; [|split].
  - unfold LogsQueries.Describe. cbn. by destruct (decode_failed _).
  - unfold queries_Metric_Desc. cbn. by destruct (decode_failed _).
  - intros m [Hm|Hm]%elem_of_app; unfold LogsQueries.Describe;
      apply elem_of_app.
    + left. destruct (outcomeQ rt s); try by apply elem_of_nil in Hm.
      unfold const_metrics, queries_metrics in Hm.
      rewrite <- list_fmap_compose in Hm.
      apply list_elem_of_fmap in Hm as (metric & -> & Hmetric).
      apply list_elem_of_fmap. by exists metric.
    + right. unfold bookkeeping in Hm.
      repeat (apply elem_of_cons in Hm as [->|Hm]; [cbn; set_solver|]).
      by apply elem_of_nil in Hm.
Qed.

Lemma pulls_cons {S} (Collect : RoundTrip → M S unit) rt rts s :
  state_of (run (pulls Collect (rt :: rts)) s)
  = state_of (run (pulls Collect rts) (state_of (run (Collect rt) s)))
  ∧ events_of (run (pulls Collect (rt :: rts)) s)
    = events_of (run (Collect rt) s)
      ++ events_of (run (pulls Collect rts) (state_of (run (Collect rt) s))).
Proof.
  unfold run, state_of, events_of. cbn [pulls]. unfold mbind, M_bind.
  destruct (Collect rt s) as [[[] s1] t1]. cbn.
  by destruct (pulls Collect rts s1) as [[[] s2] t2].
Qed.

(** C8: the descriptors given by [Describe] are the same after any
    number of [Collect] calls, whatever the network did; every metric
    sent during those calls is reported under one of them; and for a
    collector as constructed they are the descriptors of its extraction
    metrics followed by those of [up], [total_scrapes] and
    [json_parse_failures]. *)
Theorem Describe_is_fixed
    (rts : list RoundTrip) (st : Tasks.t) (sq : LogsQueries.t) :
  let pulledT :=
    run (pulls (Tasks.Collect path_Join URL_String DecodeT) rts) st in
  let pulledQ :=
    run (pulls (LogsQueries.Collect path_Join URL_String DecodeQ) rts) sq in
  (Tasks.Describe (state_of pulledT) = Tasks.Describe st
   ∧ ∀ m, m ∈ sent (events_of pulledT) →
          tasks_Metric_Desc st m ∈ Tasks.Describe st)
  ∧ (LogsQueries.Describe (state_of pulledQ) = LogsQueries.Describe sq
     ∧ ∀ m, m ∈ sent (events_of pulledQ) →
            queries_Metric_Desc sq m ∈ LogsQueries.Describe sq)
  ∧ (∀ namespace logger client base,
       Tasks.Describe (Tasks.NewTasks namespace logger client base)
       = [ prometheus.NewDesc
             (prometheus.BuildFQName namespace "tasks" "total")
             "Number of tasks";
           prometheus.NewDesc
             (prometheus.BuildFQName namespace "tasks" "total_gt_1s")
             "Number of tasks greater then 1 second";
           prometheus.NewDesc
             (prometheus.BuildFQName namespace "tasks" "up")
             "Was the last scrape of the ElasticSearch tasks endpoint successful.";
           prometheus.NewDesc
             (prometheus.BuildFQName namespace "tasks" "total_scrapes")
             "Current total ElasticSearch tasks scrapes.";
           prometheus.NewDesc
             (prometheus.BuildFQName namespace "tasks" "json_parse_failures")
             "Number of errors while parsing JSON." ]
       ∧ LogsQueries.Describe
           (LogsQueries.NewLogsQueries namespace logger client base)
         = [ prometheus.NewDesc
               (prometheus.BuildFQName namespace "queries"
                  "total_network_discovery_error")
               "Number of total network discovery";
             prometheus.NewDesc
               (prometheus.BuildFQName namespace "queries" "up")
               "Was the last scrape of the ElasticSearch tasks endpoint successful.";
             prometheus.NewDesc
               (prometheus.BuildFQName namespace "queries" "total_scrapes")
               "Current total ElasticSearch tasks scrapes.";
             prometheus.NewDesc
               (prometheus.BuildFQName namespace "queries"
                  "json_parse_failures")
               "Number of errors while parsing JSON." ]).
Proof.
  cbv zeta. split; [|split; [|done]].
  - revert st. induction rts as [|rt rts IH]; intros st.
    + split; [done|]. by intros m ?%elem_of_nil.
    + destruct (pulls_cons (Tasks.Collect path_Join URL_String DecodeT)
                  rt rts st) as (-> & ->).
      destruct (Tasks_pull_keeps_descriptors rt st) as (Hd & Hm & Hsent).
      destruct (IH (state_of (collectT rt st))) as (IHd & IHsent).
      split; [congruence|].
      intros m. rewrite sent_app, elem_of_app. intros [?|?]; [by auto|].
      rewrite <- Hd, <- Hm. by auto.
  - revert sq. induction rts as [|rt rts IH]; intros sq.
    + split; [done|]. by intros m ?%elem_of_nil.
    + destruct (pulls_cons (LogsQueries.Collect path_Join URL_String DecodeQ)
                  rt rts sq) as (-> & ->).
      destruct (LogsQueries_pull_keeps_descriptors rt sq) as (Hd & Hm & Hsent).
      destruct (IH (state_of (collectQ rt sq))) as (IHd & IHsent).
      split; [congruence|].
      intros m. rewrite sent_app, elem_of_app. intros [?|?]; [by auto|].
      rewrite <- Hd, <- Hm. by auto.
Qed.

(** C9: when [getAndParseURL] of either collector obtained a response,
    it closes the body of that response exactly once before it returns,
    on every path; the value it returns and the state it leaves are the
    same as if the close had succeeded; and a failed close is logged as
    a warning, a successful one is not. *)
Theorem response_body_closed_once
    (rt : RoundTrip) (u : url.URL) (dataT : TasksResponse)
    (dataQ : NetworkDiscoveryErrorQueryResponse)
    (st : Tasks.t) (sq : LogsQueries.t) :
  (∀ res,
     rt (Tasks.client st) (http.NewRequest "GET" (URL_String u) None)
     = inr res →
     let r := run (Tasks.getAndParseURL URL_String DecodeT rt u dataT) st in
     let r' := run (Tasks.getAndParseURL URL_String DecodeT
                      (closing_cleanly rt) u dataT) st in
     closes (events_of r) = [EvClose (http.Body res)]
     ∧ result_of r = result_of r'
     ∧ state_of r = state_of r'
     ∧ logged (events_of r)
       = match http.close_error (http.Body res) with
         | Some err =>
             [EvLog (Tasks.logger st) log.Warn "failed to close http.Client"
                (LibraryError err)]
         | None => []
         end)
  ∧ (∀ res,
       rt http.zero_Client
          (http.Header_Set
             (http.NewRequest "POST" (URL_String u)
                (Some LogsQueries.jsonStr))
             "Content-Type" "application/json")
       = inr res →
       let r := run (LogsQueries.getAndParseURL URL_String DecodeQ rt u dataQ)
                  sq in
       let r' := run (LogsQueries.getAndParseURL URL_String DecodeQ
                        (closing_cleanly rt) u dataQ) sq in
       closes (events_of r) = [EvClose (http.Body res)]
       ∧ result_of r = result_of r'
       ∧ state_of r = state_of r'
       ∧ logged (events_of r)
         = match http.close_error (http.Body res) with
           | Some err =>
               [EvLog (LogsQueries.logger sq) log.Warn
                  "failed to close http.Client" (LibraryError err)]
           | None => []
           end).
Proof.
  split; intros res Hres; cbv zeta.
  - rewrite !Tasks_getAndParseURL_run. cbv zeta.
    unfold closing_cleanly. rewrite Hres.
    unfold state_of, events_of, result_of. cbn [fst snd].
    unfold fetch_result, fetch_events, close_events, outcome.
    destruct res as [code [content cerr]]. cbn.
    destruct cerr; case_decide; try done;
      by destruct (DecodeT _ _) as [d [e|]].
  - rewrite !LogsQueries_getAndParseURL_run. cbv zeta.
    unfold closing_cleanly. rewrite Hres.
    unfold state_of, events_of, result_of. cbn [fst snd].
    unfold fetch_result, fetch_events, close_events, outcome.
    destruct res as [code [content cerr]]. cbn.
    destruct cerr; case_decide; try done;
      by destruct (DecodeQ _ _) as [d [e|]].
Qed.
End Protocol.

(** ** The theorems at the sample inputs *)

Lemma total_gt_1s_on_sample :
  ranges_over (map_to_list (Nodes sample_tasks)) (Nodes sample_tasks)
  ∧ (∀ node, ranges_over (map_to_list (Tasks node)) (Tasks node))
  ∧ Z.of_nat (slow_task_count sample_tasks) < 2 ^ 53
  ∧ total_gt_1s_Value sample_tasks = Z.of_nat (slow_task_count sample_tasks)
  ∧ Z.of_nat (slow_task_count sample_tasks) = 1.
Proof.
  assert (H1 : ranges_over (map_to_list (Nodes sample_tasks))
                 (Nodes sample_tasks)) by apply ranges_over_map_to_list.
  assert (H2 : ∀ node, ranges_over (map_to_list (Tasks node)) (Tasks node))
    by (intros node; apply ranges_over_map_to_list).
  assert (H3 : Z.of_nat (slow_task_count sample_tasks) < 2 ^ 53)
    by (vm_compute; reflexivity).
  split; [exact H1|]. split; [exact H2|]. split; [exact H3|].
  split; [|vm_compute; reflexivity].
  apply (total_gt_1s_counts_longer_than_1s sample_tasks
           (λ node, map_to_list (Tasks node))
           (map_to_list (Nodes sample_tasks)) H1 H2 H3).
Defined.

Lemma total_on_sample :
  ranges_over (map_to_list (Nodes sample_tasks)) (Nodes sample_tasks)
  ∧ Z.of_nat (task_count sample_tasks) < 2 ^ 53
  ∧ total_Value sample_tasks = Z.of_nat (task_count sample_tasks)
  ∧ Z.of_nat (task_count sample_tasks) = 3.
Proof.
  assert (H1 : ranges_over (map_to_list (Nodes sample_tasks))
                 (Nodes sample_tasks)) by apply ranges_over_map_to_list.
  assert (H2 : Z.of_nat (task_count sample_tasks) < 2 ^ 53)
    by (vm_compute; reflexivity).
  split; [exact H1|]. split; [exact H2|].
  split; [|vm_compute; reflexivity].
  apply (total_is_sum_of_node_sizes sample_tasks
           (map_to_list (Nodes sample_tasks)) H1 H2).
Defined.

Lemma total_gt_1s_le_total_on_sample :
  ranges_over (map_to_list (Nodes sample_tasks)) (Nodes sample_tasks)
  ∧ (∀ node, ranges_over (map_to_list (Tasks node)) (Tasks node))
  ∧ Z.of_nat (task_count sample_tasks) ≤ int_max
  ∧ total_gt_1s_Value sample_tasks ≤ total_Value sample_tasks.
Proof.
  assert (H1 : ranges_over (map_to_list (Nodes sample_tasks))
                 (Nodes sample_tasks)) by apply ranges_over_map_to_list.
  assert (H2 : ∀ node, ranges_over (map_to_list (Tasks node)) (Tasks node))
    by (intros node; apply ranges_over_map_to_list).
  assert (H3 : Z.of_nat (task_count sample_tasks) ≤ int_max)
    by (vm_compute; discriminate).
  split; [exact H1|]. split; [exact H2|]. split; [exact H3|].
  apply (total_gt_1s_le_total sample_tasks (λ node, map_to_list (Tasks node))
           (map_to_list (Nodes sample_tasks))
           (map_to_list (Nodes sample_tasks)) H1 H1 H2 H3).
Defined.

(** An upstream answering 500 to both collectors. *)
Lemma failed_pull_on_sample :
  let rt := replies 500 "" None in
  failed (tasks_outcome sample_path_Join sample_URL_String sample_DecodeT rt
            sample_Tasks)
  ∧ failed (queries_outcome sample_path_Join sample_URL_String sample_DecodeQ
              rt sample_LogsQueries)
  ∧ sent (events_of (run (Tasks.Collect sample_path_Join sample_URL_String
                            sample_DecodeT rt) sample_Tasks))
    = bookkeeping
  ∧ sent (events_of (run (LogsQueries.Collect sample_path_Join
                            sample_URL_String sample_DecodeQ rt)
                       sample_LogsQueries))
    = bookkeeping.
Proof.
  cbv zeta.
  destruct (failed_pull_sends_bookkeeping_only sample_path_Join
              sample_URL_String sample_DecodeT sample_DecodeQ
              (replies 500 "" None) sample_Tasks sample_LogsQueries)
    as [HT HQ].
  assert (H1 : failed (tasks_outcome sample_path_Join sample_URL_String
                         sample_DecodeT (replies 500 "" None) sample_Tasks))
    by (vm_compute; exact I).
  assert (H2 : failed (queries_outcome sample_path_Join sample_URL_String
                         sample_DecodeQ (replies 500 "" None)
                         sample_LogsQueries))
    by (vm_compute; exact I).
  split; [exact H1|]. split; [exact H2|].
  split; [exact (proj1 (proj2 (HT H1)))|exact (proj1 (proj2 (HQ H2)))].
Defined.

(** A body that is not the document the decoder knows. *)
Lemma jsonParseFailures_on_sample :
  let rt := replies 200 "<html>" None in
  decode_failed (tasks_outcome sample_path_Join sample_URL_String
                   sample_DecodeT rt sample_Tasks) = true
  ∧ prometheus.counter_value
      (Tasks.jsonParseFailures
         (state_of (run (Tasks.Collect sample_path_Join sample_URL_String
                           sample_DecodeT rt) sample_Tasks)))
    = 1.
Proof.
  cbv zeta.
  destruct (jsonParseFailures_counts_decode_failures sample_path_Join
              sample_URL_String sample_DecodeT sample_DecodeQ
              (replies 200 "<html>" None) sample_Tasks sample_LogsQueries)
    as [(Hvalue & _ & _) _].
  split; [vm_compute; reflexivity|].
  rewrite Hvalue. vm_compute. reflexivity.
Defined.

(** The documents the decoders know, served with status 200. *)
Lemma successful_pull_on_sample :
  tasks_outcome sample_path_Join sample_URL_String sample_DecodeT
    (replies 200 no_nodes_json None) sample_Tasks
  = Decoded {| Nodes := ∅ |}
  ∧ queries_outcome sample_path_Join sample_URL_String sample_DecodeQ
      (replies 200 seven_hits_json None) sample_LogsQueries
    = Decoded {| Hits := {| Total := 7 |} |}
  ∧ prometheus.gauge_value
      (Tasks.up (state_of (run (Tasks.Collect sample_path_Join
                                  sample_URL_String sample_DecodeT
                                  (replies 200 no_nodes_json None))
                             sample_Tasks)))
    = 1
  ∧ prometheus.gauge_value
      (LogsQueries.up
         (state_of (run (LogsQueries.Collect sample_path_Join
                           sample_URL_String sample_DecodeQ
                           (replies 200 seven_hits_json None))
                      sample_LogsQueries)))
    = 1.
Proof.
  assert (H1 : tasks_outcome sample_path_Join sample_URL_String sample_DecodeT
                 (replies 200 no_nodes_json None) sample_Tasks
               = Decoded {| Nodes := ∅ |}) by (vm_compute; reflexivity).
  assert (H2 : queries_outcome sample_path_Join sample_URL_String
                 sample_DecodeQ (replies 200 seven_hits_json None)
                 sample_LogsQueries
               = Decoded {| Hits := {| Total := 7 |} |})
    by (vm_compute; reflexivity).
  split; [exact H1|]. split; [exact H2|]. split.
  - destruct (successful_pull_sends_each_metric_once sample_path_Join
                sample_URL_String sample_DecodeT sample_DecodeQ
                (replies 200 no_nodes_json None) sample_Tasks
                sample_LogsQueries) as [[HT _] _].
    exact (proj1 (HT _ H1)).
  - destruct (successful_pull_sends_each_metric_once sample_path_Join
                sample_URL_String sample_DecodeT sample_DecodeQ
                (replies 200 seven_hits_json None) sample_Tasks
                sample_LogsQueries) as [_ [[HQ _] _]].
    exact (proj1 (HQ _ H2)).
Defined.

(** Three pulls: a refused connection, a 500, a good answer. *)
Lemma Describe_on_sample :
  let rts := [refuses; replies 500 "" None; replies 200 no_nodes_json None] in
  Tasks.Describe
    (state_of (run (pulls (Tasks.Collect sample_path_Join sample_URL_String
                             sample_DecodeT) rts) sample_Tasks))
  = Tasks.Describe sample_Tasks
  ∧ prometheus.OwnMetric prometheus.own_up
    ∈ sent (events_of (run (pulls (Tasks.Collect sample_path_Join
                                     sample_URL_String sample_DecodeT) rts)
                         sample_Tasks))
  ∧ tasks_Metric_Desc sample_Tasks (prometheus.OwnMetric prometheus.own_up)
    ∈ Tasks.Describe sample_Tasks.
Proof.
  cbv zeta.
  destruct (Describe_is_fixed sample_path_Join sample_URL_String
              sample_DecodeT sample_DecodeQ
              [refuses; replies 500 "" None; replies 200 no_nodes_json None]
              sample_Tasks sample_LogsQueries) as [[Hsame Hin] _].
  assert (H1 : prometheus.OwnMetric prometheus.own_up
    ∈ sent (events_of (run (pulls (Tasks.Collect sample_path_Join
                                     sample_URL_String sample_DecodeT)
        [refuses; replies 500 "" None; replies 200 no_nodes_json None])
                         sample_Tasks)))
    by (vm_compute; apply list_elem_of_here).
  split; [exact Hsame|]. split; [exact H1|]. exact (Hin _ H1).
Defined.

(** A good answer whose body fails to close. *)
Lemma response_body_closed_on_sample :
  let rt := replies 200 no_nodes_json (Some "already closed") in
  let body := {| http.content := no_nodes_json;
                 http.close_error := Some "already closed" |} in
  rt (Tasks.client sample_Tasks)
     (http.NewRequest "GET" (sample_URL_String sample_base) None)
  = inr {| http.StatusCode := 200; http.Body := body |}
  ∧ closes (events_of (run (Tasks.getAndParseURL sample_URL_String
                              sample_DecodeT rt sample_base {| Nodes := ∅ |})
                         sample_Tasks))
    = [EvClose body]
  ∧ result_of (run (Tasks.getAndParseURL sample_URL_String sample_DecodeT rt
                      sample_base {| Nodes := ∅ |}) sample_Tasks)
    = result_of (run (Tasks.getAndParseURL sample_URL_String sample_DecodeT
                        (closing_cleanly rt) sample_base {| Nodes := ∅ |})
                   sample_Tasks).
Proof.
  cbv zeta.
  destruct (response_body_closed_once sample_URL_String
              sample_DecodeT sample_DecodeQ
              (replies 200 no_nodes_json (Some "already closed")) sample_base
              {| Nodes := ∅ |} {| Hits := {| Total := 0 |} |}
              sample_Tasks sample_LogsQueries) as [HT _].
  assert (H1 : replies 200 no_nodes_json (Some "already closed")
                 (Tasks.client sample_Tasks)
                 (http.NewRequest "GET" (sample_URL_String sample_base) None)
               = inr {| http.StatusCode := 200;
                        http.Body :=
                          {| http.content := no_nodes_json;
                             http.close_error := Some "already closed" |} |})
    by reflexivity.
  split; [exact H1|].
  destruct (HT _ H1) as (Hclose & Hresult & _).
  split; [exact Hclose|exact Hresult].
Defined.

(** ** The scenarios of the specification *)

(** One node with two tasks, of 500 ms and of 1500 ms. *)
Example two_tasks_scenario :
  let tasks :=
    {| Nodes :=
         {[ "node-1" :=
              sample_node (<[ "node-1:1" := sample_task 500000000 ]>
                           {[ "node-1:2" := sample_task 1500000000 ]}) ]} |} in
  total_Value tasks = 2 ∧ total_gt_1s_Value tasks = 1.
Proof. vm_compute. split; reflexivity. Qed.

(** The first running time that is counted, and the last that is not. *)
Example one_task_scenario :
  total_gt_1s_Value (one_task 1001000000) = 1
  ∧ total_gt_1s_Value (one_task 1000999999) = 0
  ∧ total_Value (one_task 1000999999) = 1.
Proof. vm_compute. repeat split; reflexivity. Qed.

(** Seven hits. *)
Example seven_hits_scenario :
  let r := run (LogsQueries.Collect sample_path_Join sample_URL_String
                  sample_DecodeQ (replies 200 seven_hits_json None))
             sample_LogsQueries in
  sent (events_of r)
  = prometheus.ConstMetric
      (prometheus.NewDesc "elasticsearch_queries_total_network_discovery_error"
         "Number of total network discovery")
      prometheus.GaugeValue 7
    :: bookkeeping
  ∧ prometheus.gauge_value (LogsQueries.up (state_of r)) = 1.
Proof. vm_compute. split; reflexivity. Qed.

(** The upstream answers 500: what the tasks collector does, event by
    event. *)
Example status_500_scenario :
  let r := run (Tasks.Collect sample_path_Join sample_URL_String
                  sample_DecodeT (replies 500 "" None)) sample_Tasks in
  events_of r
  = [ EvInc prometheus.own_totalScrapes;
      EvDo sample_client
        {| http.Method := "GET";
           http.URL := "http://localhost:9200/_tasks";
           http.Header := [];
           http.ReqBody := None |};
      EvClose {| http.content := ""; http.close_error := None |};
      EvSet prometheus.own_up 0;
      EvLog sample_logger log.Warn "failed to fetch and decode tasks"
        (RequestFailedWithCode 500);
      EvSend (prometheus.OwnMetric prometheus.own_up);
      EvSend (prometheus.OwnMetric prometheus.own_totalScrapes);
      EvSend (prometheus.OwnMetric prometheus.own_jsonParseFailures) ]
  ∧ prometheus.gauge_value (Tasks.up (state_of r)) = 0
  ∧ prometheus.counter_value (Tasks.totalScrapes (state_of r)) = 1
  ∧ prometheus.counter_value (Tasks.jsonParseFailures (state_of r)) = 0.
Proof. vm_compute. repeat split; reflexivity. Qed.

(** * Further properties *)

(** ** The extraction functions on responses that grow *)

Lemma total_Value_exact tasks :
  Z.of_nat (task_count tasks) < 2 ^ 53 →
  total_Value tasks = Z.of_nat (task_count tasks).
Proof.
  intros Hfit. unfold total_Value. cbv zeta.
  rewrite (total_loop_value tasks)
    by (apply ranges_over_map_to_list || (unfold int_max; lia)).
  apply float64_of_int_exact. lia.
Qed.

Lemma total_gt_1s_Value_exact tasks :
  Z.of_nat (slow_task_count tasks) < 2 ^ 53 →
  total_gt_1s_Value tasks = Z.of_nat (slow_task_count tasks).
Proof.
  intros Hfit. unfold total_gt_1s_Value, gt_1s_loop. cbv zeta.
  rewrite (gt_1s_loop_value tasks)
    by (apply ranges_over_map_to_list || (unfold int_max; lia)
        || (intros; apply ranges_over_map_to_list)).
  apply float64_of_int_exact. lia.
Qed.

Lemma sum_over_nodes_insert f nodes k node :
  nodes !! k = None →
  sum_over_nodes f {| Nodes := <[k := node]> nodes |}
  = (f node + sum_over_nodes f {| Nodes := nodes |})%nat.
Proof.
  intros Hfresh. unfold sum_over_nodes. cbn [Nodes].
  by rewrite (map_to_list_insert nodes k node Hfresh).
Qed.

Lemma sum_over_nodes_lookup f nodes k node :
  nodes !! k = Some node →
  sum_over_nodes f {| Nodes := nodes |}
  = (f node + sum_over_nodes f {| Nodes := delete k nodes |})%nat.
Proof.
  intros Hnode.
  rewrite <- (sum_over_nodes_insert f (delete k nodes) k node)
    by apply lookup_delete_eq.
  by rewrite insert_delete_id.
Qed.

Lemma sum_over_nodes_replace f nodes k node node' :
  nodes !! k = Some node →
  (sum_over_nodes f {| Nodes := <[k := node']> nodes |} + f node
   = sum_over_nodes f {| Nodes := nodes |} + f node')%nat.
Proof.
  intros Hnode. rewrite (sum_over_nodes_lookup f nodes k node Hnode).
  rewrite <- (insert_delete_eq nodes k node').
  rewrite (sum_over_nodes_insert f (delete k nodes) k node')
    by apply lookup_delete_eq.
  lia.
Qed.

Lemma slow_tasks_threshold node :
  slow_tasks node
  = filter (λ kt : string * Task, 1001000000 ≤ RunningTimeInNanos kt.2)
      (Tasks node).
Proof.
  unfold slow_tasks. apply map_filter_ext. intros id task _. cbn [snd].
  apply longer_than_1s_threshold.
Qed.

(** X1: because the running time is cut down to whole milliseconds
    before it is compared, [total_gt_1s] counts the tasks that have run
    for at least 1,001,000,000 ns: a task between 1000 ms and 1001 ms is
    not counted, nor is one with a negative running time. *)
Theorem total_gt_1s_counts_from_1001_ms (tasks : TasksResponse) :
  Z.of_nat (slow_task_count tasks) < 2 ^ 53 →
  total_gt_1s_Value tasks
  = Z.of_nat
      (sum_over_nodes
         (λ node,
            size (filter (λ kt : string * Task,
                            1001000000 ≤ RunningTimeInNanos kt.2)
                    (Tasks node)))
         tasks)
  ∧ (∀ task, gt_1s task = true ↔ 1001000000 ≤ RunningTimeInNanos task).
Proof.
  intros Hfit. split.
  - rewrite total_gt_1s_Value_exact by done.
    unfold slow_task_count, sum_over_nodes. f_equal.
    induction (map_to_list (Nodes tasks)) as [|[k node] l IH]; [done|].
    cbn [sum_list_with snd]. by rewrite IH, slow_tasks_threshold.
  - intros task. rewrite gt_1s_spec. apply longer_than_1s_threshold.
Qed.

(** X2: a node that joins a response adds the size of its task map to
    [total] and the number of its slow tasks to [total_gt_1s]; the nodes
    already there count as before. *)
Theorem values_add_up_over_nodes
    (tasks : TasksResponse) (k : string) (node : Node) :
  Nodes tasks !! k = None →
  Z.of_nat (task_count tasks) + Z.of_nat (size (Tasks node)) < 2 ^ 53 →
  let tasks' := {| Nodes := <[k := node]> (Nodes tasks) |} in
  total_Value tasks' = total_Value tasks + Z.of_nat (size (Tasks node))
  ∧ total_gt_1s_Value tasks'
    = total_gt_1s_Value tasks + Z.of_nat (size (slow_tasks node)).
Proof.
  intros Hfresh Hfit. cbv zeta. destruct tasks as [nodes]. cbn [Nodes] in *.
  pose proof (slow_tasks_le node).
  pose proof (slow_task_count_le {| Nodes := nodes |}).
  assert (Ht : task_count {| Nodes := <[k := node]> nodes |}
               = (size (Tasks node) + task_count {| Nodes := nodes |})%nat)
    by (by apply sum_over_nodes_insert).
  assert (Hs : slow_task_count {| Nodes := <[k := node]> nodes |}
               = (size (slow_tasks node)
                  + slow_task_count {| Nodes := nodes |})%nat)
    by (by apply sum_over_nodes_insert).
  rewrite !total_Value_exact, !total_gt_1s_Value_exact by lia. lia.
Qed.

(** X3: one more task on a node of a response raises [total] by one,
    and [total_gt_1s] by one exactly when the test of the source holds of
    that task. *)
Theorem one_more_task
    (tasks : TasksResponse) (k : string) (node : Node) (id : string)
    (task : Task) :
  Nodes tasks !! k = Some node →
  Tasks node !! id = None →
  Z.of_nat (task_count tasks) + 1 < 2 ^ 53 →
  let tasks' :=
    {| Nodes := <[k := with_Tasks node (<[id := task]> (Tasks node))]>
                  (Nodes tasks) |} in
  total_Value tasks' = total_Value tasks + 1
  ∧ total_gt_1s_Value tasks'
    = total_gt_1s_Value tasks + (if gt_1s task then 1 else 0).
Proof.
  intros Hnode Hfresh Hfit. cbv zeta. destruct tasks as [nodes].
  cbn [Nodes] in *.
  set (node' := with_Tasks node (<[id := task]> (Tasks node))).
  pose proof (slow_task_count_le {| Nodes := nodes |}).
  pose proof (sum_over_nodes_replace (λ node, size (Tasks node)) nodes k node
                node' Hnode) as Ht.
  pose proof (sum_over_nodes_replace (λ node, size (slow_tasks node)) nodes k
                node node' Hnode) as Hs.
  cbn beta in Ht, Hs. fold (task_count {| Nodes := nodes |}) in Ht.
  fold (task_count {| Nodes := <[k := node']> nodes |}) in Ht.
  fold (slow_task_count {| Nodes := nodes |}) in Hs.
  fold (slow_task_count {| Nodes := <[k := node']> nodes |}) in Hs.
  assert (Hsize : size (Tasks node') = S (size (Tasks node)))
    by (by apply map_size_insert_None).
  assert (Hslow : size (slow_tasks node')
                  = ((if gt_1s task then 1 else 0) + size (slow_tasks node))%nat).
  { unfold slow_tasks, node'. cbn [Tasks with_Tasks].
    destruct (gt_1s task) eqn:Hgt.
    - rewrite map_filter_insert_True by (by apply gt_1s_spec).
      rewrite map_size_insert_None; [done|].
      by rewrite map_lookup_filter_None; left.
    - rewrite map_filter_insert_False
        by (cbn [snd]; rewrite <- gt_1s_spec; congruence).
      by rewrite delete_id. }
  pose proof (slow_tasks_le node).
  destruct (gt_1s task);
    rewrite !total_Value_exact, !total_gt_1s_Value_exact by lia; lia.
Qed.

(** X4: a response whose nodes all have an empty (or absent) task map
    gives 0 for both metrics, however many nodes it has. *)
Theorem nodes_without_tasks_count_nothing (tasks : TasksResponse) :
  (∀ k node, Nodes tasks !! k = Some node → Tasks node = ∅) →
  total_Value tasks = 0 ∧ total_gt_1s_Value tasks = 0.
Proof.
  intros Hempty.
  assert (Ht : task_count tasks = 0%nat).
  { unfold task_count, sum_over_nodes.
    assert (Hall : Forall (λ kn : string * Node, Tasks kn.2 = ∅)
                     (map_to_list (Nodes tasks))).
    { apply Forall_forall. intros [k node] Hin%elem_of_map_to_list.
      by apply (Hempty k). }
    induction Hall as [|[k node] l Hnode _ IH]; [done|].
    cbn [sum_list_with snd] in *. by rewrite Hnode, map_size_empty, IH. }
  pose proof (slow_task_count_le tasks).
  rewrite total_Value_exact, total_gt_1s_Value_exact by lia. lia.
Qed.

(** ** More on a pull, event by event *)

Lemma decodes_app t t' : decodes (t ++ t') = decodes t ++ decodes t'.
Proof. apply List.filter_app. Qed.

Lemma fetching_app t t' : fetching (t ++ t') = fetching t ++ fetching t'.
Proof. apply List.filter_app. Qed.

Lemma reporting_app t t' : reporting (t ++ t') = reporting t ++ reporting t'.
Proof. apply List.filter_app. Qed.

#[global] Hint Rewrite decodes_app fetching_app reporting_app : trace.

Section MorePullFacts.

Context {R : Type}.
Context (logger : log.Logger) (client : http.Client) (req : http.Request).
Context (target : url.URL) (decode : Decoder R) (zero : R).
Context (metrics : list (prometheus.Desc * prometheus.ValueType * (R → Z))).

Lemma metric_events_report_only data :
  decodes (metric_events metrics data) = []
  ∧ fetching (metric_events metrics data) = [].
Proof.
  unfold metric_events.
  induction metrics as [|m ms IH]; [done|].
  rewrite !fmap_cons, concat_cons. read_trace.
  by destruct IH as (-> & ->).
Qed.

Lemma pull_events_logged reply :
  logged (pull_events logger client req target decode zero metrics reply)
  = close_warning logger reply
    ++ failure_warning logger
         (outcome_error target (outcome decode zero reply)).
Proof.
  unfold pull_events, fetch_events, fetch_result, close_events, outcome,
    close_warning, failure_warning, outcome_error.
  destruct reply as [err|[code [content cerr]]]; [done|]. cbn.
  destruct cerr; case_decide; try done;
    destruct (decode _ _) as [d [e|]]; try done;
    read_trace; cbn;
    destruct (metric_events_quiet metrics d prometheus.own_up)
      as (_ & _ & _ & Hquiet);
    unfold logged in Hquiet; by rewrite Hquiet.
Qed.

Lemma pull_events_decodes reply :
  decodes (pull_events logger client req target decode zero metrics reply)
  = match reply with
    | inl _ => []
    | inr res =>
        if decide (http.StatusCode res = 200)
        then [EvDecode (http.content (http.Body res))] else []
    end
  ∧ closes (pull_events logger client req target decode zero metrics reply)
    = match reply with
      | inl _ => []
      | inr res => [EvClose (http.Body res)]
      end.
Proof.
  unfold pull_events, fetch_events, fetch_result, close_events.
  destruct reply as [err|[code [content cerr]]]; [done|]. cbn.
  destruct cerr; case_decide; try done;
    destruct (decode _ _) as [d [e|]]; try done;
    read_trace; cbn;
    destruct (metric_events_report_only d) as (Hdecodes & _);
    destruct (metric_events_quiet metrics d prometheus.own_up)
      as (_ & Hcloses & _ & _);
    unfold decodes, closes in *; by rewrite Hdecodes, Hcloses.
Qed.

Lemma pull_events_order reply res :
  reply = inr res →
  ∃ before after,
    pull_events logger client req target decode zero metrics reply
    = before ++ EvClose (http.Body res) :: after
    ∧ reporting before = []
    ∧ fetching after = []
    ∧ closes before = [] ∧ closes after = [].
Proof.
  intros ->. unfold pull_events, fetch_events, fetch_result, close_events.
  destruct res as [code [content cerr]]. cbn.
  case_decide.
  - destruct (decode content zero) as [d [e|]].
    + exists [EvInc prometheus.own_totalScrapes; EvDo client req;
              EvDecode content; EvInc prometheus.own_jsonParseFailures].
      eexists. split; [reflexivity|]. by destruct cerr.
    + exists [EvInc prometheus.own_totalScrapes; EvDo client req;
              EvDecode content].
      eexists. split; [reflexivity|].
      destruct (metric_events_report_only d) as (_ & Hfetch).
      destruct (metric_events_quiet metrics d prometheus.own_up)
        as (_ & Hclose & _ & _).
      unfold fetching, closes in *.
      destruct cerr; cbn; rewrite ?List.filter_app, Hfetch, Hclose; done.
  - exists [EvInc prometheus.own_totalScrapes; EvDo client req].
    eexists. split; [reflexivity|]. by destruct cerr.
Qed.

End MorePullFacts.

(** ** More on the collector protocol *)

Lemma pulls_app {S} (Collect : RoundTrip → M S unit) rts rts' s :
  state_of (run (pulls Collect (rts ++ rts')) s)
  = state_of (run (pulls Collect rts') (state_of (run (pulls Collect rts) s)))
  ∧ events_of (run (pulls Collect (rts ++ rts')) s)
    = events_of (run (pulls Collect rts) s)
      ++ events_of (run (pulls Collect rts')
                      (state_of (run (pulls Collect rts) s))).
Proof.
  revert s. induction rts as [|rt rts IH]; intros s; [done|].
  rewrite <- app_comm_cons.
  destruct (pulls_cons Collect rt (rts ++ rts') s) as (-> & ->).
  destruct (pulls_cons Collect rt rts s) as (-> & ->).
  destruct (IH (state_of (run (Collect rt) s))) as (-> & ->).
  by rewrite app_assoc.
Qed.

Lemma pulls_one {S} (Collect : RoundTrip → M S unit) rt s :
  state_of (run (pulls Collect [rt]) s) = state_of (run (Collect rt) s).
Proof. by destruct (pulls_cons Collect rt [] s) as (-> & _). Qed.

Section MoreProtocol.

Context (path_Join : string → string → string).
Context (URL_String : url.URL → string).
Context (DecodeT : Decoder TasksResponse).
Context (DecodeQ : Decoder NetworkDiscoveryErrorQueryResponse).

Local Abbreviation CollectT := (Tasks.Collect path_Join URL_String DecodeT).
Local Abbreviation CollectQ :=
  (LogsQueries.Collect path_Join URL_String DecodeQ).
Local Abbreviation collectT rt s := (run (CollectT rt) s).
Local Abbreviation collectQ rt s := (run (CollectQ rt) s).
Local Abbreviation outcomeT rt s :=
  (tasks_outcome path_Join URL_String DecodeT rt s).
Local Abbreviation outcomeQ rt s :=
  (queries_outcome path_Join URL_String DecodeQ rt s).
Local Abbreviation replyT rt s := (tasks_reply path_Join URL_String rt s).
Local Abbreviation replyQ rt s := (queries_reply path_Join URL_String rt s).

Lemma Tasks_pull_events (rt : RoundTrip) (s : Tasks.t) :
  events_of (collectT rt s)
  = pull_events (Tasks.logger s) (Tasks.client s)
      (tasks_request path_Join URL_String (Tasks.url s))
      (tasks_target path_Join (Tasks.url s)) DecodeT {| Nodes := ∅ |}
      (tasks_metrics s) (replyT rt s).
Proof. by rewrite Tasks_Collect_run. Qed.

Lemma LogsQueries_pull_events (rt : RoundTrip) (s : LogsQueries.t) :
  events_of (collectQ rt s)
  = pull_events (LogsQueries.logger s) http.zero_Client
      (queries_request path_Join URL_String (LogsQueries.url s))
      (queries_target path_Join (LogsQueries.url s)) DecodeQ
      {| Hits := {| Total := 0 |} |} (queries_metrics s) (replyQ rt s).
Proof. by rewrite LogsQueries_Collect_run. Qed.

(** X5: the warnings of one [Collect] are, in this order: the warning
    that the body could not be closed, when [Close] returned an error;
    then, when the pull failed, one warning carrying the error of the
    failure (target and cause, or status code, or the decoder's error).
    Nothing else is logged, and nothing at all on a clean success. *)
Theorem pull_warns_of_its_failure
    (rt : RoundTrip) (st : Tasks.t) (sq : LogsQueries.t) :
  logged (events_of (collectT rt st))
  = close_warning (Tasks.logger st) (replyT rt st)
    ++ failure_warning (Tasks.logger st)
         (outcome_error (tasks_target path_Join (Tasks.url st))
            (outcomeT rt st))
  ∧ logged (events_of (collectQ rt sq))
    = close_warning (LogsQueries.logger sq) (replyQ rt sq)
      ++ failure_warning (LogsQueries.logger sq)
           (outcome_error (queries_target path_Join (LogsQueries.url sq))
              (outcomeQ rt sq)).
Proof.
  rewrite Tasks_pull_events, LogsQueries_pull_events.
  split; apply pull_events_logged.
Qed.

(** X6: [Collect] decodes the body of a response once when the status
    is 200 and never otherwise; it closes the body of the response it
    obtained once, and closes nothing when it obtained none. *)
Theorem pull_decodes_only_a_200_body
    (rt : RoundTrip) (st : Tasks.t) (sq : LogsQueries.t) :
  (decodes (events_of (collectT rt st))
   = match replyT rt st with
     | inl _ => []
     | inr res =>
         if decide (http.StatusCode res = 200)
         then [EvDecode (http.content (http.Body res))] else []
     end
   ∧ closes (events_of (collectT rt st))
     = match replyT rt st with
       | inl _ => []
       | inr res => [EvClose (http.Body res)]
       end)
  ∧ (decodes (events_of (collectQ rt sq))
     = match replyQ rt sq with
       | inl _ => []
       | inr res =>
           if decide (http.StatusCode res = 200)
           then [EvDecode (http.content (http.Body res))] else []
       end
     ∧ closes (events_of (collectQ rt sq))
       = match replyQ rt sq with
         | inl _ => []
         | inr res => [EvClose (http.Body res)]
         end).
Proof.
  rewrite Tasks_pull_events, LogsQueries_pull_events.
  split; apply pull_events_decodes.
Qed.

(** X7: when a response was obtained, its body is closed after the
    round trip, the decoding and the counting of a parse failure, and
    before [up] is set, an extraction function is called or a metric is
    sent. *)
Theorem pull_closes_before_it_reports
    (rt : RoundTrip) (st : Tasks.t) (sq : LogsQueries.t) :
  (∀ res, replyT rt st = inr res →
     ∃ before after,
       events_of (collectT rt st)
       = before ++ EvClose (http.Body res) :: after
       ∧ reporting before = []
       ∧ fetching after = []
       ∧ closes before = [] ∧ closes after = [])
  ∧ (∀ res, replyQ rt sq = inr res →
       ∃ before after,
         events_of (collectQ rt sq)
         = before ++ EvClose (http.Body res) :: after
         ∧ reporting before = []
         ∧ fetching after = []
         ∧ closes before = [] ∧ closes after = []).
Proof.
  rewrite Tasks_pull_events, LogsQueries_pull_events.
  split; intros res Hres; by apply pull_events_order.
Qed.

Lemma Tasks_pull_state (rt : RoundTrip) (s : Tasks.t) :
  state_of (collectT rt s)
  = Tasks.mk (Tasks.logger s) (Tasks.client s) (Tasks.url s)
      (prometheus.Set_ (Tasks.up s)
         match outcomeT rt s with Decoded _ => 1 | _ => 0 end)
      (prometheus.Inc (Tasks.totalScrapes s))
      (if decode_failed (outcomeT rt s)
       then prometheus.Inc (Tasks.jsonParseFailures s)
       else Tasks.jsonParseFailures s)
      (Tasks.taskMetrics s).
Proof. apply Tasks_pull. Qed.

Lemma LogsQueries_pull_state (rt : RoundTrip) (s : LogsQueries.t) :
  state_of (collectQ rt s)
  = LogsQueries.mk (LogsQueries.logger s) (LogsQueries.client s)
      (LogsQueries.url s)
      (prometheus.Set_ (LogsQueries.up s)
         match outcomeQ rt s with Decoded _ => 1 | _ => 0 end)
      (prometheus.Inc (LogsQueries.totalScrapes s))
      (if decode_failed (outcomeQ rt s)
       then prometheus.Inc (LogsQueries.jsonParseFailures s)
       else LogsQueries.jsonParseFailures s)
      (LogsQueries.networkDiscoveryErrorQueryMetrics s).
Proof. apply LogsQueries_pull. Qed.

(** What a sequence of pulls leaves of a collector: the configuration
    as it was, hence the same outcome for the same network. *)
Lemma Tasks_pulls_keep (rts : list RoundTrip) (s : Tasks.t) :
  let s' := state_of (run (pulls CollectT rts) s) in
  Tasks.logger s' = Tasks.logger s
  ∧ Tasks.client s' = Tasks.client s
  ∧ Tasks.url s' = Tasks.url s
  ∧ Tasks.taskMetrics s' = Tasks.taskMetrics s
  ∧ prometheus.gauge_Desc (Tasks.up s') = prometheus.gauge_Desc (Tasks.up s)
  ∧ prometheus.counter_Desc (Tasks.totalScrapes s')
    = prometheus.counter_Desc (Tasks.totalScrapes s)
  ∧ prometheus.counter_Desc (Tasks.jsonParseFailures s')
    = prometheus.counter_Desc (Tasks.jsonParseFailures s).
Proof.
  cbv zeta. revert s. induction rts as [|rt rts IH]; intros s; [done|].
  destruct (pulls_cons CollectT rt rts s) as (-> & _).
  destruct (IH (state_of (collectT rt s))) as (-> & -> & -> & -> & -> & -> & ->).
  rewrite Tasks_pull_state. cbn. by destruct (decode_failed _).
Qed.

Lemma LogsQueries_pulls_keep (rts : list RoundTrip) (s : LogsQueries.t) :
  let s' := state_of (run (pulls CollectQ rts) s) in
  LogsQueries.logger s' = LogsQueries.logger s
  ∧ LogsQueries.client s' = LogsQueries.client s
  ∧ LogsQueries.url s' = LogsQueries.url s
  ∧ LogsQueries.networkDiscoveryErrorQueryMetrics s'
    = LogsQueries.networkDiscoveryErrorQueryMetrics s
  ∧ prometheus.gauge_Desc (LogsQueries.up s')
    = prometheus.gauge_Desc (LogsQueries.up s)
  ∧ prometheus.counter_Desc (LogsQueries.totalScrapes s')
    = prometheus.counter_Desc (LogsQueries.totalScrapes s)
  ∧ prometheus.counter_Desc (LogsQueries.jsonParseFailures s')
    = prometheus.counter_Desc (LogsQueries.jsonParseFailures s).
Proof.
  cbv zeta. revert s. induction rts as [|rt rts IH]; intros s; [done|].
  destruct (pulls_cons CollectQ rt rts s) as (-> & _).
  destruct (IH (state_of (collectQ rt s))) as (-> & -> & -> & -> & -> & -> & ->).
  rewrite LogsQueries_pull_state. cbn. by destruct (decode_failed _).
Qed.

Lemma Tasks_outcome_kept (rts : list RoundTrip) (rt : RoundTrip) (s : Tasks.t) :
  outcomeT rt (state_of (run (pulls CollectT rts) s)) = outcomeT rt s.
Proof.
  destruct (Tasks_pulls_keep rts s) as (_ & Hclient & Hurl & _).
  unfold tasks_outcome, tasks_reply. by rewrite Hclient, Hurl.
Qed.

Lemma LogsQueries_outcome_kept (rts : list RoundTrip) (rt : RoundTrip)
    (s : LogsQueries.t) :
  outcomeQ rt (state_of (run (pulls CollectQ rts) s)) = outcomeQ rt s.
Proof.
  destruct (LogsQueries_pulls_keep rts s) as (_ & _ & Hurl & _).
  unfold queries_outcome, queries_reply. by rewrite Hurl.
Qed.

Lemma Tasks_outcome_after_pull (rt rt' : RoundTrip) (s : Tasks.t) :
  outcomeT rt' (state_of (collectT rt s)) = outcomeT rt' s.
Proof. by rewrite Tasks_pull_state. Qed.

Lemma LogsQueries_outcome_after_pull (rt rt' : RoundTrip)
    (s : LogsQueries.t) :
  outcomeQ rt' (state_of (collectQ rt s)) = outcomeQ rt' s.
Proof. by rewrite LogsQueries_pull_state. Qed.

(** X8: after any sequence of pulls, [totalScrapes] has grown by the
    number of pulls, [jsonParseFailures] by the number of pulls that
    ended in a decode failure, and as many round trips were attempted as
    there were pulls. *)
Theorem counters_add_up_over_pulls
    (rts : list RoundTrip) (st : Tasks.t) (sq : LogsQueries.t) :
  let pulledT := run (pulls CollectT rts) st in
  let pulledQ := run (pulls CollectQ rts) sq in
  (prometheus.counter_value (Tasks.totalScrapes (state_of pulledT))
   = prometheus.counter_value (Tasks.totalScrapes st) + Z.of_nat (length rts)
   ∧ prometheus.counter_value (Tasks.jsonParseFailures (state_of pulledT))
     = prometheus.counter_value (Tasks.jsonParseFailures st)
       + Z.of_nat (length (filter (λ rt, decode_failed (outcomeT rt st)) rts))
   ∧ length (round_trips (events_of pulledT)) = length rts)
  ∧ (prometheus.counter_value (LogsQueries.totalScrapes (state_of pulledQ))
     = prometheus.counter_value (LogsQueries.totalScrapes sq)
       + Z.of_nat (length rts)
     ∧ prometheus.counter_value
         (LogsQueries.jsonParseFailures (state_of pulledQ))
       = prometheus.counter_value (LogsQueries.jsonParseFailures sq)
         + Z.of_nat
             (length (filter (λ rt, decode_failed (outcomeQ rt sq)) rts))
     ∧ length (round_trips (events_of pulledQ)) = length rts).
Proof.
  cbv zeta. split.
  - revert st. induction rts as [|rt rts IH]; intros st.
    + cbn. repeat split; lia.
    + destruct (pulls_cons CollectT rt rts st) as (-> & ->).
      destruct (IH (state_of (collectT rt st))) as (-> & -> & Hdo).
      rewrite round_trips_app, length_app, Hdo.
      rewrite (list_filter_iff _ (λ rt', decode_failed (outcomeT rt' st)))
        by (intros rt'; by rewrite Tasks_outcome_after_pull).
      destruct (Tasks_pull path_Join URL_String DecodeT rt st)
        as (_ & _ & _ & _ & (rest & -> & Hrest & _) & ->).
      unfold round_trips in *. cbn [List.filter is_Do]. rewrite Hrest.
      rewrite filter_cons.
      cbn. destruct (decode_failed (outcomeT rt st)); cbn;
        case_decide; try done; cbn [length]; repeat split; lia.
  - revert sq. induction rts as [|rt rts IH]; intros sq.
    + cbn. repeat split; lia.
    + destruct (pulls_cons CollectQ rt rts sq) as (-> & ->).
      destruct (IH (state_of (collectQ rt sq))) as (-> & -> & Hdo).
      rewrite round_trips_app, length_app, Hdo.
      rewrite (list_filter_iff _ (λ rt', decode_failed (outcomeQ rt' sq)))
        by (intros rt'; by rewrite LogsQueries_outcome_after_pull).
      destruct (LogsQueries_pull path_Join URL_String DecodeQ rt sq)
        as (_ & _ & _ & _ & (rest & -> & Hrest & _) & ->).
      unfold round_trips in *. cbn [List.filter is_Do]. rewrite Hrest.
      rewrite filter_cons.
      cbn. destruct (decode_failed (outcomeQ rt sq)); cbn;
        case_decide; try done; cbn [length]; repeat split; lia.
Qed.

(** X9: after a sequence of pulls [up] is 1 when the last pull decoded
    a response and 0 otherwise, whatever the earlier pulls came to and
    whatever [up] was before. *)
Theorem up_tells_of_the_last_pull_only
    (rts : list RoundTrip) (rt : RoundTrip) (st : Tasks.t)
    (sq : LogsQueries.t) :
  prometheus.gauge_value
    (Tasks.up (state_of (run (pulls CollectT (rts ++ [rt])) st)))
  = match outcomeT rt st with Decoded _ => 1 | _ => 0 end
  ∧ prometheus.gauge_value
      (LogsQueries.up (state_of (run (pulls CollectQ (rts ++ [rt])) sq)))
    = match outcomeQ rt sq with Decoded _ => 1 | _ => 0 end.
Proof.
  split.
  - destruct (pulls_app CollectT rts [rt] st) as (-> & _).
    rewrite pulls_one, Tasks_pull_state, Tasks_outcome_kept. reflexivity.
  - destruct (pulls_app CollectQ rts [rt] sq) as (-> & _).
    rewrite pulls_one, LogsQueries_pull_state, LogsQueries_outcome_kept.
    reflexivity.
Qed.

(** X10: no sequence of pulls changes the logger, the client, the base
    URL or the metric table of a collector. *)
Theorem pulls_keep_the_configuration
    (rts : list RoundTrip) (st : Tasks.t) (sq : LogsQueries.t) :
  let st' := state_of (run (pulls CollectT rts) st) in
  let sq' := state_of (run (pulls CollectQ rts) sq) in
  (Tasks.logger st' = Tasks.logger st
   ∧ Tasks.client st' = Tasks.client st
   ∧ Tasks.url st' = Tasks.url st
   ∧ Tasks.taskMetrics st' = Tasks.taskMetrics st)
  ∧ (LogsQueries.logger sq' = LogsQueries.logger sq
     ∧ LogsQueries.client sq' = LogsQueries.client sq
     ∧ LogsQueries.url sq' = LogsQueries.url sq
     ∧ LogsQueries.networkDiscoveryErrorQueryMetrics sq'
       = LogsQueries.networkDiscoveryErrorQueryMetrics sq).
Proof.
  cbv zeta.
  destruct (Tasks_pulls_keep rts st) as (? & ? & ? & ? & _).
  destruct (LogsQueries_pulls_keep rts sq) as (? & ? & ? & ? & _).
  done.
Qed.

(** X11: a tasks collector as constructed, pulling a response that
    decodes, sends the gauge [<namespace>_tasks_total] with the number of
    tasks, then the gauge [<namespace>_tasks_total_gt_1s] with the number
    of slow tasks, then the bookkeeping metrics. *)
Theorem tasks_pull_reports_the_counts
    (namespace : string) (logger : log.Logger) (client : http.Client)
    (base : url.URL) (rt : RoundTrip) (data : TasksResponse) :
  outcomeT rt (Tasks.NewTasks namespace logger client base) = Decoded data →
  Z.of_nat (task_count data) < 2 ^ 53 →
  sent (events_of (collectT rt (Tasks.NewTasks namespace logger client base)))
  = [ prometheus.ConstMetric
        (prometheus.NewDesc (prometheus.BuildFQName namespace "tasks" "total")
           "Number of tasks")
        prometheus.GaugeValue (Z.of_nat (task_count data));
      prometheus.ConstMetric
        (prometheus.NewDesc
           (prometheus.BuildFQName namespace "tasks" "total_gt_1s")
           "Number of tasks greater then 1 second")
        prometheus.GaugeValue (Z.of_nat (slow_task_count data)) ]
    ++ bookkeeping.
Proof.
  intros Hdata Hfit. pose proof (slow_task_count_le data).
  destruct (Tasks_pull path_Join URL_String DecodeT rt
              (Tasks.NewTasks namespace logger client base)) as (-> & _).
  rewrite Hdata. unfold const_metrics, tasks_metrics. cbn.
  rewrite total_Value_exact, total_gt_1s_Value_exact by lia. reflexivity.
Qed.

(** X12: an error-query collector as constructed, pulling a response
    that decodes, sends the gauge
    [<namespace>_queries_total_network_discovery_error] with the hit
    total of the response, then the bookkeeping metrics. *)
Theorem queries_pull_reports_the_hits
    (namespace : string) (logger : log.Logger) (client : http.Client)
    (base : url.URL) (rt : RoundTrip)
    (data : NetworkDiscoveryErrorQueryResponse) :
  outcomeQ rt (LogsQueries.NewLogsQueries namespace logger client base)
  = Decoded data →
  Z.abs (Total (Hits data)) < 2 ^ 53 →
  sent (events_of (collectQ rt
                     (LogsQueries.NewLogsQueries namespace logger client
                        base)))
  = [ prometheus.ConstMetric
        (prometheus.NewDesc
           (prometheus.BuildFQName namespace "queries"
              "total_network_discovery_error")
           "Number of total network discovery")
        prometheus.GaugeValue (Total (Hits data)) ]
    ++ bookkeeping.
Proof.
  intros Hdata Hfit.
  destruct (LogsQueries_pull path_Join URL_String DecodeQ rt
              (LogsQueries.NewLogsQueries namespace logger client base))
    as (-> & _).
  rewrite Hdata. unfold const_metrics, queries_metrics. cbn.
  unfold total_network_discovery_error_Value.
  by rewrite float64_of_int_exact.
Qed.

(** X15: on a successful pull the descriptors of the metrics sent are
    the descriptors of [Describe], one metric each and in the same order;
    on a failed pull they are the last three of them. *)
Theorem pull_sends_what_Describe_announces
    (rt : RoundTrip) (st : Tasks.t) (sq : LogsQueries.t) :
  tasks_Metric_Desc st <$> sent (events_of (collectT rt st))
  = match outcomeT rt st with
    | Decoded _ => Tasks.Describe st
    | _ => [ prometheus.gauge_Desc (Tasks.up st);
             prometheus.counter_Desc (Tasks.totalScrapes st);
             prometheus.counter_Desc (Tasks.jsonParseFailures st) ]
    end
  ∧ queries_Metric_Desc sq <$> sent (events_of (collectQ rt sq))
    = match outcomeQ rt sq with
      | Decoded _ => LogsQueries.Describe sq
      | _ => [ prometheus.gauge_Desc (LogsQueries.up sq);
               prometheus.counter_Desc (LogsQueries.totalScrapes sq);
               prometheus.counter_Desc (LogsQueries.jsonParseFailures sq) ]
      end.
Proof.
  split.
  - destruct (Tasks_pull path_Join URL_String DecodeT rt st) as (-> & _).
    destruct (outcomeT rt st); try reflexivity.
    rewrite fmap_app. unfold Tasks.Describe, const_metrics, tasks_metrics.
    by rewrite <- !list_fmap_compose.
  - destruct (LogsQueries_pull path_Join URL_String DecodeQ rt sq)
      as (-> & _).
    destruct (outcomeQ rt sq); try reflexivity.
    rewrite fmap_app.
    unfold LogsQueries.Describe, const_metrics, queries_metrics.
    by rewrite <- !list_fmap_compose.
Qed.

Lemma Tasks_fetchAndDecodeTasks_run (rt : RoundTrip) (s : Tasks.t) :
  result_of (run (Tasks.fetchAndDecodeTasks path_Join URL_String DecodeT rt) s)
  = fetch_result (tasks_target path_Join (Tasks.url s)) DecodeT
      {| Nodes := ∅ |} (replyT rt s).
Proof.
  unfold Tasks.fetchAndDecodeTasks, Tasks.getAndParseURL,
    Tasks.jsonParseFailures_Inc.
  step_M. unfold_pull. destruct s. reply_cases rt DecodeT; reflexivity.
Qed.

Lemma LogsQueries_fetchAndDecodeTasks_run (rt : RoundTrip)
    (s : LogsQueries.t) :
  result_of (run (LogsQueries.fetchAndDecodeTasks path_Join URL_String
                    DecodeQ rt) s)
  = fetch_result (queries_target path_Join (LogsQueries.url s)) DecodeQ
      {| Hits := {| Total := 0 |} |} (replyQ rt s).
Proof.
  unfold LogsQueries.fetchAndDecodeTasks, LogsQueries.getAndParseURL,
    LogsQueries.getNetworkDiscoveryReq, LogsQueries.jsonParseFailures_Inc.
  step_M. unfold_pull. destruct s. reply_cases rt DecodeQ; reflexivity.
Qed.

Lemma fetch_result_by_outcome {R} target (decode : Decoder R) zero reply :
  (fetch_result target decode zero reply).2
  = outcome_error target (outcome decode zero reply)
  ∧ match outcome decode zero reply with
    | Decoded data => (fetch_result target decode zero reply).1 = data
    | DecodeError _ => True
    | _ => (fetch_result target decode zero reply).1 = zero
    end.
Proof.
  unfold fetch_result, outcome, outcome_error.
  destruct reply as [err|res]; [done|]. case_decide; [|done].
  by destruct (decode _ _) as [d [e|]].
Qed.

(** X13: [fetchAndDecodeTasks] returns a nil error and the decoded
    response exactly when a response with status 200 decoded; otherwise
    it returns the error of the failure, and with it the zero-valued
    response when no response was obtained or the status was not 200. *)
Theorem fetchAndDecodeTasks_returns_data_or_error
    (rt : RoundTrip) (st : Tasks.t) (sq : LogsQueries.t) :
  let rT := result_of (run (Tasks.fetchAndDecodeTasks path_Join URL_String
                              DecodeT rt) st) in
  let rQ := result_of (run (LogsQueries.fetchAndDecodeTasks path_Join
                              URL_String DecodeQ rt) sq) in
  (rT.2 = outcome_error (tasks_target path_Join (Tasks.url st))
            (outcomeT rt st)
   ∧ match outcomeT rt st with
     | Decoded data => rT.1 = data
     | DecodeError _ => True
     | _ => rT.1 = {| Nodes := ∅ |}
     end)
  ∧ (rQ.2 = outcome_error (queries_target path_Join (LogsQueries.url sq))
              (outcomeQ rt sq)
     ∧ match outcomeQ rt sq with
       | Decoded data => rQ.1 = data
       | DecodeError _ => True
       | _ => rQ.1 = {| Hits := {| Total := 0 |} |}
       end).
Proof.
  cbv zeta.
  rewrite Tasks_fetchAndDecodeTasks_run, LogsQueries_fetchAndDecodeTasks_run.
  split; apply fetch_result_by_outcome.
Qed.

End MoreProtocol.

Lemma BuildFQName_full namespace subsystem name :
  namespace ≠ "" → subsystem ≠ "" → name ≠ "" →
  prometheus.BuildFQName namespace subsystem name
  = namespace +:+ "_" +:+ subsystem +:+ "_" +:+ name.
Proof.
  intros Hns Hsub Hname. unfold prometheus.BuildFQName.
  rewrite decide_False by done. by rewrite decide_True.
Qed.

(** X14: for every namespace the nine metric names of the two
    collectors are pairwise distinct, so both can be registered with one
    registry. *)
Theorem descriptor_names_are_distinct
    (namespace : string) (logger : log.Logger) (client : http.Client)
    (base : url.URL) :
  NoDup (prometheus.fqName
         <$> (Tasks.Describe (Tasks.NewTasks namespace logger client base)
              ++ LogsQueries.Describe
                   (LogsQueries.NewLogsQueries namespace logger client base))).
Proof.
  unfold Tasks.Describe, LogsQueries.Describe. cbn.
  destruct (decide (namespace = "")) as [->|Hns].
  - apply (bool_decide_unpack _). vm_compute. exact I.
  - rewrite !BuildFQName_full by done.
    change (NoDup ((String.app namespace)
                   <$> [ "_tasks_total"; "_tasks_total_gt_1s"; "_tasks_up";
                         "_tasks_total_scrapes"; "_tasks_json_parse_failures";
                         "_queries_total_network_discovery_error";
                         "_queries_up"; "_queries_total_scrapes";
                         "_queries_json_parse_failures" ])).
    apply (NoDup_fmap_2 _). apply (bool_decide_unpack _). vm_compute. exact I.
Qed.

(** ** The further properties at the sample inputs *)

Lemma total_gt_1s_from_1001_ms_on_sample :
  Z.of_nat (slow_task_count sample_tasks) < 2 ^ 53
  ∧ total_gt_1s_Value sample_tasks
    = Z.of_nat
        (sum_over_nodes
           (λ node,
              size (filter (λ kt : string * Task,
                              1001000000 ≤ RunningTimeInNanos kt.2)
                      (Tasks node)))
           sample_tasks).
Proof.
  assert (H1 : Z.of_nat (slow_task_count sample_tasks) < 2 ^ 53)
    by (vm_compute; reflexivity).
  split; [exact H1|].
  exact (proj1 (total_gt_1s_counts_from_1001_ms sample_tasks H1)).
Defined.

(** A second node, with one slow task, joins a response of one node. *)
Lemma values_add_up_on_sample :
  let tasks := one_task 500000000 in
  let node := sample_node {[ "node-2:1" := sample_task 1500000000 ]} in
  Nodes tasks !! "node-2" = None
  ∧ Z.of_nat (task_count tasks) + Z.of_nat (size (Tasks node)) < 2 ^ 53
  ∧ total_Value {| Nodes := <[ "node-2" := node ]> (Nodes tasks) |}
    = total_Value tasks + Z.of_nat (size (Tasks node)).
Proof.
  cbv zeta.
  assert (H1 : Nodes (one_task 500000000) !! "node-2" = None)
    by (vm_compute; reflexivity).
  assert (H2 : Z.of_nat (task_count (one_task 500000000))
               + Z.of_nat (size (Tasks (sample_node
                     {[ "node-2:1" := sample_task 1500000000 ]}))) < 2 ^ 53)
    by (vm_compute; reflexivity).
  split; [exact H1|]. split; [exact H2|].
  exact (proj1 (values_add_up_over_nodes (one_task 500000000) "node-2"
                  (sample_node {[ "node-2:1" := sample_task 1500000000 ]})
                  H1 H2)).
Defined.

(** A second, slow task joins the node of a response of one task. *)
Lemma one_more_task_on_sample :
  let tasks := one_task 500000000 in
  let node := sample_node {[ "node-1:1" := sample_task 500000000 ]} in
  let task := sample_task 1500000000 in
  Nodes tasks !! "node-1" = Some node
  ∧ Tasks node !! "node-1:2" = None
  ∧ Z.of_nat (task_count tasks) + 1 < 2 ^ 53
  ∧ total_gt_1s_Value
      {| Nodes := <[ "node-1" :=
                       with_Tasks node (<[ "node-1:2" := task ]> (Tasks node)) ]>
                    (Nodes tasks) |}
    = total_gt_1s_Value tasks + (if gt_1s task then 1 else 0).
Proof.
  cbv zeta.
  assert (H1 : Nodes (one_task 500000000) !! "node-1"
               = Some (sample_node {[ "node-1:1" := sample_task 500000000 ]}))
    by (vm_compute; reflexivity).
  assert (H2 : Tasks (sample_node {[ "node-1:1" := sample_task 500000000 ]})
               !! "node-1:2" = None)
    by (vm_compute; reflexivity).
  assert (H3 : Z.of_nat (task_count (one_task 500000000)) + 1 < 2 ^ 53)
    by (vm_compute; reflexivity).
  split; [exact H1|]. split; [exact H2|]. split; [exact H3|].
  exact (proj2 (one_more_task (one_task 500000000) "node-1"
                  (sample_node {[ "node-1:1" := sample_task 500000000 ]})
                  "node-1:2" (sample_task 1500000000) H1 H2 H3)).
Defined.

(** A node that reports no task at all. *)
Lemma nodes_without_tasks_on_sample :
  let tasks := {| Nodes := {[ "node-1" := sample_node ∅ ]} |} in
  (∀ k node, Nodes tasks !! k = Some node → Tasks node = ∅)
  ∧ total_Value tasks = 0 ∧ total_gt_1s_Value tasks = 0.
Proof.
  cbv zeta.
  assert (H1 : ∀ k node,
             Nodes {| Nodes := {[ "node-1" := sample_node ∅ ]} |} !! k
             = Some node → Tasks node = ∅).
  { intros k node Hnode. cbn [Nodes] in Hnode.
    apply lookup_singleton_Some in Hnode as [_ <-]. reflexivity. }
  split; [exact H1|].
  exact (nodes_without_tasks_count_nothing
           {| Nodes := {[ "node-1" := sample_node ∅ ]} |} H1).
Defined.

Lemma pull_closes_before_it_reports_on_sample :
  let rt := replies 200 no_nodes_json None in
  let body := {| http.content := no_nodes_json; http.close_error := None |} in
  tasks_reply sample_path_Join sample_URL_String rt sample_Tasks
  = inr {| http.StatusCode := 200; http.Body := body |}
  ∧ ∃ before after,
      events_of (run (Tasks.Collect sample_path_Join sample_URL_String
                        sample_DecodeT rt) sample_Tasks)
      = before ++ EvClose body :: after
      ∧ reporting before = []
      ∧ fetching after = []
      ∧ closes before = [] ∧ closes after = [].
Proof.
  cbv zeta.
  assert (H1 : tasks_reply sample_path_Join sample_URL_String
                 (replies 200 no_nodes_json None) sample_Tasks
               = inr {| http.StatusCode := 200;
                        http.Body := {| http.content := no_nodes_json;
                                        http.close_error := None |} |})
    by reflexivity.
  split; [exact H1|].
  exact (proj1 (pull_closes_before_it_reports sample_path_Join
                  sample_URL_String sample_DecodeT sample_DecodeQ
                  (replies 200 no_nodes_json None) sample_Tasks
                  sample_LogsQueries) _ H1).
Defined.

Lemma tasks_pull_reports_the_counts_on_sample :
  let rt := replies 200 no_nodes_json None in
  tasks_outcome sample_path_Join sample_URL_String sample_DecodeT rt
    (Tasks.NewTasks "elasticsearch" sample_logger sample_client sample_base)
  = Decoded {| Nodes := ∅ |}
  ∧ Z.of_nat (task_count {| Nodes := ∅ |}) < 2 ^ 53
  ∧ length (sent (events_of
              (run (Tasks.Collect sample_path_Join sample_URL_String
                      sample_DecodeT rt)
                 (Tasks.NewTasks "elasticsearch" sample_logger sample_client
                    sample_base))))
    = 5%nat.
Proof.
  cbv zeta.
  assert (H1 : tasks_outcome sample_path_Join sample_URL_String sample_DecodeT
                 (replies 200 no_nodes_json None)
                 (Tasks.NewTasks "elasticsearch" sample_logger sample_client
                    sample_base)
               = Decoded {| Nodes := ∅ |}) by (vm_compute; reflexivity).
  assert (H2 : Z.of_nat (task_count {| Nodes := ∅ |}) < 2 ^ 53)
    by (vm_compute; reflexivity).
  split; [exact H1|]. split; [exact H2|].
  rewrite (tasks_pull_reports_the_counts sample_path_Join sample_URL_String
             sample_DecodeT "elasticsearch" sample_logger sample_client
             sample_base (replies 200 no_nodes_json None) {| Nodes := ∅ |}
             H1 H2).
  reflexivity.
Defined.

Lemma queries_pull_reports_the_hits_on_sample :
  let rt := replies 200 seven_hits_json None in
  queries_outcome sample_path_Join sample_URL_String sample_DecodeQ rt
    (LogsQueries.NewLogsQueries "elasticsearch" sample_logger sample_client
       sample_base)
  = Decoded {| Hits := {| Total := 7 |} |}
  ∧ Z.abs 7 < 2 ^ 53
  ∧ length (sent (events_of
              (run (LogsQueries.Collect sample_path_Join sample_URL_String
                      sample_DecodeQ rt)
                 (LogsQueries.NewLogsQueries "elasticsearch" sample_logger
                    sample_client sample_base))))
    = 4%nat.
Proof.
  cbv zeta.
  assert (H1 : queries_outcome sample_path_Join sample_URL_String
                 sample_DecodeQ (replies 200 seven_hits_json None)
                 (LogsQueries.NewLogsQueries "elasticsearch" sample_logger
                    sample_client sample_base)
               = Decoded {| Hits := {| Total := 7 |} |})
    by (vm_compute; reflexivity).
  assert (H2 : Z.abs 7 < 2 ^ 53) by (vm_compute; reflexivity).
  split; [exact H1|]. split; [exact H2|].
  rewrite (queries_pull_reports_the_hits sample_path_Join sample_URL_String
             sample_DecodeQ "elasticsearch" sample_logger sample_client
             sample_base (replies 200 seven_hits_json None)
             {| Hits := {| Total := 7 |} |} H1 H2).
  reflexivity.
Defined.
